(** * Frame extractor: a shallow embedding of the extraction script

    The script opens a video with OpenCV, reads it frame by frame and
    writes every decoded frame as [frame_NNNN.png] into a fixed folder.

    The script itself is embedded statement by statement.  The three
    libraries it calls ([os], [os.path] and [cv2]) are modelled by their
    documented behaviour over an explicit world: the directories and
    image files on disk, the videos that can be decoded, the console,
    and a log of the library calls made so far. *)

From Stdlib Require Import Ascii NArith.
From stdpp Require Import base numbers list strings gmap pretty.

Local Open Scope N_scope.

(** ** String helpers (Python slicing and searching) *)

Module Str.

(** [s[n:]] *)
Fixpoint drop (n : nat) (s : string) : string :=
  match n, s with
  | O, _ => s
  | S _, EmptyString => EmptyString
  | S n', String _ s' => drop n' s'
  end.

(** [s[:n]] *)
Fixpoint take (n : nat) (s : string) : string :=
  match n, s with
  | O, _ => EmptyString
  | S _, EmptyString => EmptyString
  | S n', String c s' => String c (take n' s')
  end.

(** [s[i:j]] for [i <= j] *)
Definition slice (i j : nat) (s : string) : string := take (j - i) (drop i s).

(** [s[-1:]]: the last character, as a string (empty for the empty string) *)
Fixpoint last (s : string) : string :=
  match s with
  | EmptyString => EmptyString
  | String c EmptyString => s
  | String _ s' => last s'
  end.

Fixpoint map (f : ascii -> ascii) (s : string) : string :=
  match s with
  | EmptyString => EmptyString
  | String c s' => String (f c) (map f s')
  end.

(** [s.find(c, start)] for a one-character needle; [None] stands for -1 *)
Fixpoint find_from (c : ascii) (start : nat) (s : string) : option nat :=
  match s with
  | EmptyString => None
  | String d s' =>
      match start with
      | S k => S <$> find_from c k s'
      | O => if Ascii.eqb c d then Some O else S <$> find_from c O s'
      end
  end.

Definition between (lo hi : nat) (c : ascii) : bool :=
  let n := nat_of_ascii c in (lo <=? n)%nat && (n <=? hi)%nat.

(** [str.upper] and [str.lower], on the ASCII letters *)
Definition upper_char (c : ascii) : ascii :=
  if between 97 122 c then ascii_of_nat (nat_of_ascii c - 32) else c.
Definition lower_char (c : ascii) : ascii :=
  if between 65 90 c then ascii_of_nat (nat_of_ascii c + 32) else c.
Definition upper : string -> string := map upper_char.
Definition lower : string -> string := map lower_char.

Definition nonempty (s : string) : bool :=
  match s with EmptyString => false | String _ _ => true end.

(** ["0" * k + s] *)
Fixpoint zeros (k : nat) (s : string) : string :=
  match k with
  | O => s
  | S k' => String "0" (zeros k' s)
  end.

End Str.

(** ** [os.path.join] with two arguments

    [os.path] is [ntpath] on Windows and [posixpath] elsewhere.  Both are
    followed branch by branch ([ntpath] as of CPython 3.12, where [join]
    rests on [splitroot]); [upper] and [lower] act on ASCII letters. *)

Inductive os_name := Nt | Posix.

Module posixpath.

Definition join (a b : string) : string :=
  if String.eqb (Str.take 1 b) "/" then b
  else if negb (Str.nonempty a) || String.eqb (Str.last a) "/" then a +:+ b
  else a +:+ "/" +:+ b.

End posixpath.

Module ntpath.

Definition sep : string := "\".
Definition is_sep (s : string) : bool := String.eqb s "\" || String.eqb s "/".
Definition is_colon_sep (s : string) : bool := String.eqb s ":" || is_sep s.
Definition unc_prefix : string := "\\?\UNC\".
Definition empty : string := EmptyString.

Definition norm_char (c : ascii) : ascii :=
  if Ascii.eqb c "/" then "\"%char else c.

(** [splitroot p = (drive, root, tail)] *)
Definition splitroot (p : string) : string * string * string :=
  let normp := Str.map norm_char p in
  if String.eqb (Str.take 1 normp) sep then
    if String.eqb (Str.slice 1 2 normp) sep then
      (* UNC and device drives *)
      let start :=
        if String.eqb (Str.upper (Str.take 8 normp)) unc_prefix
        then 8%nat else 2%nat in
      match Str.find_from "\" start normp with
      | None => (p, empty, empty)
      | Some index =>
          match Str.find_from "\" (index + 1) normp with
          | None => (p, empty, empty)
          | Some index2 =>
              (Str.take index2 p, Str.slice index2 (index2 + 1) p,
               Str.drop (index2 + 1) p)
          end
      end
    else
      (* relative path with root *)
      (empty, Str.take 1 p, Str.drop 1 p)
  else if String.eqb (Str.slice 1 2 normp) ":" then
    if String.eqb (Str.slice 2 3 normp) sep then
      (* absolute drive-letter path *)
      (Str.take 2 p, Str.slice 2 3 p, Str.drop 3 p)
    else
      (* relative path with drive *)
      (Str.take 2 p, empty, Str.drop 2 p)
  else
    (* relative path *)
    (empty, empty, p).

Definition finish (result_drive result_root result_path : string) : string :=
  if Str.nonempty result_path && negb (Str.nonempty result_root)
     && Str.nonempty result_drive
     && negb (is_colon_sep (Str.last result_drive))
  then result_drive +:+ sep +:+ result_path
  else result_drive +:+ result_root +:+ result_path.

Definition join (path p : string) : string :=
  let '(result_drive, result_root, result_path) := splitroot path in
  let '(p_drive, p_root, p_path) := splitroot p in
  let relative (result_drive : string) : string :=
    let result_path :=
      if Str.nonempty result_path && negb (is_sep (Str.last result_path))
      then result_path +:+ sep else result_path in
    finish result_drive result_root (result_path +:+ p_path) in
  if Str.nonempty p_root then
    (* second path is absolute *)
    let result_drive :=
      if Str.nonempty p_drive || negb (Str.nonempty result_drive)
      then p_drive else result_drive in
    finish result_drive p_root p_path
  else if Str.nonempty p_drive && negb (String.eqb p_drive result_drive) then
    if negb (String.eqb (Str.lower p_drive) (Str.lower result_drive)) then
      (* different drives: the first path is ignored *)
      finish p_drive p_root p_path
    else
      (* same drive in a different case *)
      relative p_drive
  else relative result_drive.

End ntpath.

Definition os_path_join (os : os_name) (a b : string) : string :=
  match os with
  | Nt => ntpath.join a b
  | Posix => posixpath.join a b
  end.

(** ** The script's constants (lines 4 and 5) and its file-name format
    (line 20) *)

Definition video_path : string := "H:\H_downloads\github--banner.mp4".
Definition output_folder : string := "H:\H_downloads\allpng".

(** [str(n)] for a non-negative integer *)
Definition py_str (n : N) : string := pretty n.

(** [format(n, "04d")] for a non-negative integer: the decimal digits,
    left-padded with zeros up to width four. *)
Definition format_04d (n : N) : string :=
  let s := py_str n in
  Str.zeros (4 - String.length s) s.

(** [f"frame_{frame_count:04d}.png"] *)
Definition frame_name (frame_count : N) : string :=
  "frame_" +:+ format_04d frame_count +:+ ".png".

(** [os.path.join(output_folder, f"frame_{frame_count:04d}.png")] *)
Definition output_path_of (os : os_name) (frame_count : N) : string :=
  os_path_join os output_folder (frame_name frame_count).

(** ** Reading a file name back

    The inverse direction of the format, used to state what index a file
    name carries. *)

Definition digit_value (c : ascii) : N := N.of_nat (nat_of_ascii c) - 48.

(** The number a string of decimal digits denotes (leading zeros allowed). *)
Fixpoint decimal_value (s : string) : N :=
  match s with
  | EmptyString => 0
  | String c s' => digit_value c * 10 ^ N.of_nat (String.length s') + decimal_value s'
  end.

Definition is_digit (c : ascii) : bool := Str.between 48 57 c.

Fixpoint all_digits (s : string) : bool :=
  match s with
  | EmptyString => true
  | String c s' => is_digit c && all_digits s'
  end.

(** The index embedded in [frame_<digits>.png]. *)
Definition name_index (name : string) : option N :=
  let digits := Str.slice 6 (String.length name - 4) name in
  if String.eqb (Str.take 6 name) "frame_"
     && String.eqb (Str.drop (String.length name - 4) name) ".png"
     && Str.nonempty digits && all_digits digits
  then Some (decimal_value digits) else None.

(** The separator [os.path.join] puts after [output_folder]. *)
Definition os_sep (os : os_name) : string :=
  match os with Nt => "\" | Posix => "/" end.

(** ** The world the script runs in *)

(** Exceptions that reach the top level: [OSError] from [os.makedirs],
    [cv2.error] from [cv2.imwrite]. *)
Inductive exn := OSError | cv2_error.

(** How a call of [cv2.imwrite] ends: it returns [True] after writing the
    file, returns [False] without writing it, or raises [cv2.error]. *)
Inductive write_outcome := Written | Refused | Throws.

(** How a statement ends: normally, or with an exception nobody catches. *)
Inductive completion (S : Type) :=
| Normal (s : S)
| Abrupt (e : exn) (s : S).
Arguments Normal {S} s.
Arguments Abrupt {S} e s.

Section Extractor.

(** A decoded frame (the array [cap.read()] hands out). *)
Context {Img : Type}.

(** What [cap.read()] returns: [(True, frame)] or [(False, None)]. *)
Inductive read_result :=
| Grab (frame : Img)
| NoGrab.

(** Library calls that touch the disk or the video, in program order. *)
Inductive call :=
| CMakedirs (name : string)
| CVideoCapture (filename : string)
| CRead
| CImwrite (filename : string) (img : Img)
| CRelease.

Record world := World {
  dirs : gset string;                      (* directories that exist *)
  files : gmap string Img;                 (* image files and their content *)
  videos : gmap string (list read_result); (* what each openable video decodes to *)
  stdout : list string;                    (* lines printed so far *)
  calls : list call;                       (* library calls so far, oldest first *)
}.

(** The world when the interpreter starts the script. *)
Definition boot (d : gset string) (f : gmap string Img)
    (v : gmap string (list read_result)) : world :=
  World d f v [] [].

Definition log (c : call) (w : world) : world :=
  World (dirs w) (files w) (videos w) (stdout w) (calls w ++ [c]).
Definition add_dirs (names : gset string) (w : world) : world :=
  World (names ∪ dirs w) (files w) (videos w) (stdout w) (calls w).
Definition put_file (name : string) (img : Img) (w : world) : world :=
  World (dirs w) (<[name := img]> (files w)) (videos w) (stdout w) (calls w).
Definition print (line : string) (w : world) : world :=
  World (dirs w) (files w) (videos w) (stdout w ++ [line]) (calls w).

(** What the script cannot control: the platform, the directories that
    lie above a path there, whether the operating system lets a
    directory be created (and, when it does not, which of the directories
    above it had been made by then), and how each image write ends. *)
Record env := Env {
  platform : os_name;
  parents : string -> gset string;
  mkdir_allowed : string -> bool;
  made_before_failure : string -> gset string;
  imwrite_outcome : string -> Img -> write_outcome;
}.

(** [os.makedirs(name, exist_ok=True)]: nothing to do when [name] is a
    directory already (the [FileExistsError] of [mkdir] is swallowed);
    otherwise the missing directories above [name] are created from the
    top down and then [name] itself.  An [OSError] is raised when [name]
    is a file, or when one of these creations is not allowed; in the
    latter case the directories above [name] made before the failing
    [mkdir] stay behind. *)
Definition os_makedirs_exist_ok (e : env) (name : string) (w : world)
    : completion world :=
  let w := log (CMakedirs name) w in
  if decide (name ∈ dirs w) then Normal w
  else if decide (is_Some (files w !! name)) then Abrupt OSError w
  else if mkdir_allowed e name then Normal (add_dirs ({[name]} ∪ parents e name) w)
  else Abrupt OSError (add_dirs (parents e name ∩ made_before_failure e name) w).

(** The capture object: whether it is opened, and the results its next
    reads will give. *)
Record capture := Capture {
  opened : bool;
  pending : list read_result;
}.

(** [cv2.VideoCapture(filename)] never raises: a file that cannot be
    opened gives a capture that is not opened. *)
Definition cv2_VideoCapture (filename : string) (w : world) : capture * world :=
  let w := log (CVideoCapture filename) w in
  match videos w !! filename with
  | Some rs => (Capture true rs, w)
  | None => (Capture false [], w)
  end.

(** [cap.read()]: the next result; [(False, None)] when the capture is
    not opened or the stream is exhausted. *)
Definition cap_read (cap : capture) (w : world) : read_result * capture * world :=
  let w := log CRead w in
  if opened cap then
    match pending cap with
    | r :: rest => (r, Capture true rest, w)
    | [] => (NoGrab, cap, w)
    end
  else (NoGrab, cap, w).

Definition cap_release (cap : capture) (w : world) : capture * world :=
  (Capture false [], log CRelease w).

(** [cv2.imwrite(filename, img)].  The script calls it as a statement
    (line 21), so the value returned is dropped: [Written] and [Refused]
    both go on normally. *)
Definition cv2_imwrite (e : env) (filename : string) (img : Img) (w : world)
    : completion world :=
  let w := log (CImwrite filename img) w in
  match imwrite_outcome e filename img with
  | Written => Normal (put_file filename img w)
  | Refused => Normal w
  | Throws => Abrupt cv2_error w
  end.

(** ** The script *)

(** The variables alive in the loop. *)
Record state := State {
  st_world : world;
  cap : capture;
  frame_count : N;
}.

Inductive flow :=
| Continue (s : state)
| Break (s : state)
| Raise (x : exn) (s : state).

(** One pass through the body of [while True] (lines 16 to 23): read;
    leave the loop when [ret] is false; otherwise build [output_path],
    write the frame, and add one to [frame_count]. *)
Definition loop_body (e : env) (s : state) : flow :=
  let '(r, cap', w) := cap_read (cap s) (st_world s) in
  match r with
  | NoGrab => Break (State w cap' (frame_count s))
  | Grab frame =>
      let output_path :=
        os_path_join (platform e) output_folder (frame_name (frame_count s)) in
      match cv2_imwrite e output_path frame w with
      | Abrupt x w' => Raise x (State w' cap' (frame_count s))
      | Normal w' => Continue (State w' cap' (frame_count s + 1))
      end
  end.

(** [while True: body] (line 15), cut off after [fuel] passes. *)
Fixpoint while_true (fuel : nat) (e : env) (s : state)
    : option (completion state) :=
  match fuel with
  | O => None
  | S fuel' =>
      match loop_body e s with
      | Continue s' => while_true fuel' e s'
      | Break s' => Some (Normal s')
      | Raise x s' => Some (Abrupt x s')
      end
  end.

(** The state in which the loop is entered: the capture of line 11 and
    [frame_count = 0] of line 13. *)
Definition loop_entry (w : world) : state :=
  let '(cap, w) := cv2_VideoCapture video_path w in
  State w cap 0.

Definition report (frame_count : N) : string :=
  "Done! Extracted " +:+ py_str frame_count +:+ " frames.".

(** The whole script: ensure the folder (line 8), open the video, run the
    loop, release the capture (line 25) and print the report (line 27).
    Nothing catches an exception.  [None] when [fuel] passes were not
    enough. *)
Definition script (fuel : nat) (e : env) (w : world)
    : option (completion world) :=
  match os_makedirs_exist_ok e output_folder w with
  | Abrupt x w => Some (Abrupt x w)
  | Normal w =>
      match while_true fuel e (loop_entry w) with
      | None => None
      | Some (Abrupt x s) => Some (Abrupt x (st_world s))
      | Some (Normal s) =>
          let '(_, w) := cap_release (cap s) (st_world s) in
          Some (Normal (print (report (frame_count s)) w))
      end
  end.

(** The state a loop ends in. *)
Definition state_of (c : completion state) : state :=
  match c with
  | Normal s => s
  | Abrupt _ s => s
  end.

(** The states the loop is in at the start of a pass, from [s0] on. *)
Inductive loop_reach (e : env) (s0 : state) : state -> Prop :=
| reach_entry : loop_reach e s0 s0
| reach_pass (s s' : state) :
    loop_reach e s0 s -> loop_body e s = Continue s' -> loop_reach e s0 s'.

(** ** Reading a run *)

(** A call with its file name blanked. *)
Definition anonymous (c : call) : call :=
  match c with
  | CImwrite _ img => CImwrite EmptyString img
  | _ => c
  end.

(** Two worlds that differ at most in the names of the image files:
    the same directories, videos and console, and the same calls up to
    the file names passed to [cv2.imwrite]. *)
Definition alike (w1 w2 : world) : Prop :=
  dirs w1 = dirs w2 /\ videos w1 = videos w2 /\ stdout w1 = stdout w2
  /\ anonymous <$> calls w1 = anonymous <$> calls w2.

(** Two passes that end the same way, in states that differ at most in
    the counter and in file names. *)
Definition flow_alike (a b : flow) : Prop :=
  match a, b with
  | Continue s1, Continue s2 | Break s1, Break s2 =>
      cap s1 = cap s2 /\ alike (st_world s1) (st_world s2)
  | Raise x1 s1, Raise x2 s2 =>
      x1 = x2 /\ cap s1 = cap s2 /\ alike (st_world s1) (st_world s2)
  | _, _ => False
  end.


(** The frames a source yields: those read before the first failed read. *)
Fixpoint decodable (rs : list read_result) : list Img :=
  match rs with
  | Grab frame :: rs' => frame :: decodable rs'
  | _ => []
  end.

(** The frames of the video at [video_path]; none when it cannot be opened. *)
Definition source_frames (v : gmap string (list read_result)) : list Img :=
  decodable (default [] (v !! video_path)).

(** The image writes among the calls, in order. *)
Fixpoint imwrites (cs : list call) : list (string * Img) :=
  match cs with
  | [] => []
  | CImwrite p img :: cs' => (p, img) :: imwrites cs'
  | _ :: cs' => imwrites cs'
  end.

(** The number of reads among the calls. *)
Fixpoint reads (cs : list call) : nat :=
  match cs with
  | [] => O
  | CRead :: cs' => S (reads cs')
  | _ :: cs' => reads cs'
  end.

(** The calls made by the passes that decode [frames] and write them,
    the first of them under index [c]. *)
Fixpoint pass_calls (os : os_name) (c : N) (frames : list Img) : list call :=
  match frames with
  | [] => []
  | frame :: frames' =>
      CRead :: CImwrite (output_path_of os c) frame :: pass_calls os (c + 1) frames'
  end.

(** The image files after those passes. *)
Fixpoint pass_files (e : env) (c : N) (frames : list Img)
    (m : gmap string Img) : gmap string Img :=
  match frames with
  | [] => m
  | frame :: frames' =>
      let p := output_path_of (platform e) c in
      pass_files e (c + 1) frames'
        match imwrite_outcome e p frame with
        | Written => <[p := frame]> m
        | _ => m
        end
  end.

Definition after_passes (e : env) (c : N) (frames : list Img) (w : world) : world :=
  World (dirs w) (pass_files e c frames (files w)) (videos w) (stdout w)
        (calls w ++ pass_calls (platform e) c frames).

(** No write of [frames], numbered from [c], raises. *)
Definition no_throw (e : env) (c : N) (frames : list Img) : Prop :=
  forall (i : nat) (img : Img), frames !! i = Some img ->
    imwrite_outcome e (output_path_of (platform e) (c + N.of_nat i)) img <> Throws.

(** [os.makedirs(output_folder, exist_ok=True)] does not raise. *)
Definition folder_ok (e : env) (d : gset string) (f : gmap string Img) : Prop :=
  output_folder ∈ d ∨ (f !! output_folder = None ∧ mkdir_allowed e output_folder = true).

(** The directories once the output folder is ensured. *)
Definition ensured (e : env) (d : gset string) : gset string :=
  if decide (output_folder ∈ d) then d
  else {[output_folder]} ∪ parents e output_folder ∪ d.

(** The world a run starts its loop in, once the folder is ensured and
    the capture is created. *)
Definition entered (e : env) (d : gset string) (f : gmap string Img)
    (v : gmap string (list read_result)) : world :=
  World (ensured e d) f v []
        [CMakedirs output_folder; CVideoCapture video_path].

(** The world a run leaves behind when it decodes [frames], finds no
    further frame, and finishes. *)
Definition finished (e : env) (d : gset string) (f : gmap string Img)
    (v : gmap string (list read_result)) (frames : list Img) : world :=
  print (report (N.of_nat (length frames)))
    (log CRelease (log CRead (after_passes e 0 frames (entered e d f v)))).

(** The world a run leaves behind when the write of [frame], coming
    after [frames], raises. *)
Definition aborted (e : env) (d : gset string) (f : gmap string Img)
    (v : gmap string (list read_result)) (frames : list Img) (frame : Img) : world :=
  log (CImwrite (output_path_of (platform e) (N.of_nat (length frames))) frame)
    (log CRead (after_passes e 0 frames (entered e d f v))).

(** The world a run that could not ensure the folder leaves behind. *)
Definition refused (e : env) (d : gset string) (f : gmap string Img)
    (v : gmap string (list read_result)) : world :=
  World (if decide (is_Some (f !! output_folder)) then d
         else (parents e output_folder ∩ made_before_failure e output_folder) ∪ d)
        f v [] [CMakedirs output_folder].

Definition world_of (r : completion world) : world :=
  match r with
  | Normal w => w
  | Abrupt _ w => w
  end.

(** The number of [cap.release()] calls among the calls. *)
Fixpoint releases (cs : list call) : nat :=
  match cs with
  | [] => O
  | CRelease :: cs' => S (releases cs')
  | _ :: cs' => releases cs'
  end.

End Extractor.

(** ** Concrete worlds, with frames stood for by numbers *)

Module Demo.

(** Every directory may be created and every write succeeds. *)
Definition env_ok (os : os_name) : env (Img:=nat) :=
  Env os (fun _ => {["H:\H_downloads"]}) (fun _ => true) (fun _ => ∅) (fun _ _ => Written).

(** Writes under names accepted by [accept] succeed, the others return
    [False]. *)
Definition env_refusing (os : os_name) (accept : string -> bool) : env (Img:=nat) :=
  Env os (fun _ => {["H:\H_downloads"]}) (fun _ => true) (fun _ => ∅) (fun p _ => if accept p then Written else Refused).

(** Writes under names accepted by [accept] succeed, the others raise. *)
Definition env_throwing (os : os_name) (accept : string -> bool) : env (Img:=nat) :=
  Env os (fun _ => {["H:\H_downloads"]}) (fun _ => true) (fun _ => ∅) (fun p _ => if accept p then Written else Throws).

(** No directory may be created. *)
Definition env_locked (os : os_name) : env (Img:=nat) :=
  Env os (fun _ => {["H:\H_downloads"]}) (fun _ => false) (fun _ => ∅) (fun _ _ => Written).

(** The output folder itself may not be created; the directory above it
    is made before that is found out. *)
Definition env_leaf_locked (os : os_name) : env (Img:=nat) :=
  Env os (fun _ => {["H:\H_downloads"]}) (fun _ => false)
      (fun _ => {["H:\H_downloads"]}) (fun _ _ => Written).

(** A video of the given frames at [video_path]. *)
Definition video (frames : list nat) : gmap string (list (read_result (Img:=nat))) :=
  {[ video_path := Grab <$> frames ]}.

(** No video at all: [video_path] cannot be opened. *)
Definition no_video : gmap string (list (read_result (Img:=nat))) := ∅.

Definition no_dirs : gset string := ∅.
Definition no_files : gmap string nat := ∅.

(** Every write returns [False]. *)
Definition env_all_refused (os : os_name) : env (Img:=nat) :=
  env_refusing os (fun _ => false).

(** The write of the first frame returns [False]; the others succeed. *)
Definition env_first_refused (os : os_name) : env (Img:=nat) :=
  env_refusing os (fun p => negb (String.eqb p (output_path_of os 0))).

(** The write of the second frame raises; the others succeed. *)
Definition env_second_throws (os : os_name) : env (Img:=nat) :=
  env_throwing os (fun p => negb (String.eqb p (output_path_of os 1))).

End Demo.

(** * Properties *)

(** ** The format at work *)

Example output_path_nt_7 :
  output_path_of Nt 7 = "H:\H_downloads\allpng\frame_0007.png".
Proof. vm_compute. reflexivity. Qed.

Example output_path_posix_12345 :
  output_path_of Posix 12345 = "H:\H_downloads\allpng/frame_12345.png".
Proof. vm_compute. reflexivity. Qed.

Example frame_name_3 : frame_name 3 = "frame_0003.png".
Proof. vm_compute. reflexivity. Qed.

Example report_3 : report 3 = "Done! Extracted 3 frames.".
Proof. vm_compute. reflexivity. Qed.

(** ** File names *)

Module StrFacts.

Lemma length_app (s t : string) :
  String.length (s +:+ t) = (String.length s + String.length t)%nat.
Proof. induction s as [|c s IH]; simpl; [done|]. by rewrite IH. Qed.

Lemma take_app (s t : string) : Str.take (String.length s) (s +:+ t) = s.
Proof. induction s as [|c s IH]; simpl; [by destruct t|]. by rewrite IH. Qed.

Lemma drop_app (s t : string) : Str.drop (String.length s) (s +:+ t) = t.
Proof. induction s as [|c s IH]; simpl; done. Qed.

Lemma app_inv_tail (s1 s2 t : string) : s1 +:+ t = s2 +:+ t -> s1 = s2.
Proof.
  revert s2. induction s1 as [|c s1 IH]; intros [|d s2] Heq.
  - done.
  - apply (f_equal String.length) in Heq.
    rewrite !length_app in Heq. simpl in Heq. lia.
  - apply (f_equal String.length) in Heq.
    rewrite !length_app in Heq. simpl in Heq. lia.
  - change (String c (s1 +:+ t) = String d (s2 +:+ t)) in Heq.
    injection Heq as -> Heq. f_equal. by apply IH.
Qed.

Lemma length_zeros (k : nat) (s : string) :
  String.length (Str.zeros k s) = (k + String.length s)%nat.
Proof. induction k as [|k IH]; simpl; [done|]. by rewrite IH. Qed.

End StrFacts.

Lemma digit_value_char (d : N) : d < 10 -> digit_value (pretty_N_char d) = d.
Proof.
  intros Hd.
  assert (d = 0 ∨ d = 1 ∨ d = 2 ∨ d = 3 ∨ d = 4 ∨ d = 5 ∨ d = 6 ∨ d = 7
          ∨ d = 8 ∨ d = 9) as Hcase by lia.
  repeat destruct Hcase as [-> | Hcase]; try subst d; reflexivity.
Qed.

Lemma is_digit_char (d : N) : is_digit (pretty_N_char d) = true.
Proof. destruct d as [|p]; [done|]. by do 4 (destruct p as [p|p|]; try done). Qed.

Lemma decimal_value_zeros (k : nat) (s : string) :
  decimal_value (Str.zeros k s) = decimal_value s.
Proof.
  induction k as [|k IH]; cbn [Str.zeros decimal_value]; [done|].
  rewrite IH. change (digit_value "0") with 0. lia.
Qed.

Lemma decimal_value_go (x : N) (s : string) :
  decimal_value (pretty_N_go x s)
  = x * 10 ^ N.of_nat (String.length s) + decimal_value s.
Proof.
  revert s. induction (N.lt_wf_0 x) as [x _ IH]; intros s.
  assert (x = 0 ∨ 0 < x) as [-> | Hpos] by lia.
  - rewrite pretty_N_go_0. lia.
  - rewrite pretty_N_go_step by done.
    rewrite IH by (by apply N.div_lt).
    cbn [decimal_value String.length].
    rewrite digit_value_char by (by apply N.mod_lt).
    rewrite Nat2N.inj_succ, N.pow_succ_r'.
    pose proof (N.div_mod x 10 ltac:(done)) as Hdm. nia.
Qed.

Lemma all_digits_go (x : N) (s : string) :
  all_digits s = true -> all_digits (pretty_N_go x s) = true.
Proof.
  revert s. induction (N.lt_wf_0 x) as [x _ IH]; intros s Hs.
  assert (x = 0 ∨ 0 < x) as [-> | Hpos] by lia.
  - by rewrite pretty_N_go_0.
  - rewrite pretty_N_go_step by done.
    apply IH; [by apply N.div_lt|].
    cbn [all_digits]. by rewrite is_digit_char, Hs.
Qed.

Lemma py_str_nonempty (n : N) : Str.nonempty (py_str n) = true.
Proof.
  unfold py_str, pretty, pretty_N. case_decide as Hn; [done|].
  rewrite pretty_N_go_step by lia.
  assert (forall x s, Str.nonempty s = true ->
            Str.nonempty (pretty_N_go x s) = true) as Hgo.
  { intros x. induction (N.lt_wf_0 x) as [x _ IH]; intros s Hs.
    assert (x = 0 ∨ 0 < x) as [-> | Hpos] by lia.
    - by rewrite pretty_N_go_0.
    - rewrite pretty_N_go_step by done. apply IH; [by apply N.div_lt|done]. }
  by apply Hgo.
Qed.

(** The decimal digits of [n] denote [n]. *)
Lemma decimal_value_py_str (n : N) : decimal_value (py_str n) = n.
Proof.
  unfold py_str, pretty, pretty_N. case_decide as Hn.
  - by subst n.
  - rewrite decimal_value_go. simpl. lia.
Qed.

Lemma all_digits_py_str (n : N) : all_digits (py_str n) = true.
Proof.
  unfold py_str, pretty, pretty_N. case_decide; [done|]. by apply all_digits_go.
Qed.

Lemma decimal_value_bound (s : string) :
  all_digits s = true -> decimal_value s < 10 ^ N.of_nat (String.length s).
Proof.
  induction s as [|c s IH]; intros Hs; cbn [decimal_value String.length].
  - simpl. lia.
  - cbn [all_digits] in Hs. apply andb_true_iff in Hs as [Hc Hs].
    specialize (IH Hs).
    assert (digit_value c <= 9) as Hd.
    { unfold is_digit, Str.between in Hc. unfold digit_value.
      apply andb_true_iff in Hc as [_ Hc]. apply Nat.leb_le in Hc. lia. }
    rewrite Nat2N.inj_succ, N.pow_succ_r'. nia.
Qed.

(** A number has more digits than any power of ten below it. *)
Lemma py_str_length (n : N) (k : nat) :
  10 ^ N.of_nat k <= n -> (k < String.length (py_str n))%nat.
Proof.
  intros Hk.
  pose proof (decimal_value_bound _ (all_digits_py_str n)) as Hb.
  rewrite decimal_value_py_str in Hb.
  destruct (decide (k < String.length (py_str n))%nat) as [|Hge]; [done|].
  assert (10 ^ N.of_nat (String.length (py_str n)) <= 10 ^ N.of_nat k).
  { apply N.pow_le_mono_r; lia. }
  lia.
Qed.

Lemma pretty_N_go_length (k : nat) : forall (x : N) (s : string),
  x < 10 ^ N.of_nat k ->
  (String.length (pretty_N_go x s) <= k + String.length s)%nat.
Proof.
  induction k as [|k IH]; intros x s Hx.
  - assert (x = 0) as -> by (simpl in Hx; lia). by rewrite pretty_N_go_0.
  - assert (x = 0 ∨ 0 < x) as [-> | Hpos] by lia.
    + rewrite pretty_N_go_0. lia.
    + rewrite pretty_N_go_step by done.
      etrans; [apply IH|simpl; lia].
      rewrite Nat2N.inj_succ, N.pow_succ_r' in Hx.
      apply N.Div0.div_lt_upper_bound. lia.
Qed.

(** A number below a power of ten has no more digits than that power has
    zeros. *)
Lemma py_str_length_le (n : N) (k : nat) :
  n < 10 ^ N.of_nat k -> (0 < k)%nat -> (String.length (py_str n) <= k)%nat.
Proof.
  intros Hn Hk. unfold py_str, pretty, pretty_N. case_decide.
  - simpl. lia.
  - etrans; [by apply pretty_N_go_length|]. simpl. lia.
Qed.

Lemma format_04d_length (n : N) :
  String.length (format_04d n) = (4 `max` String.length (py_str n))%nat.
Proof. unfold format_04d. rewrite StrFacts.length_zeros. lia. Qed.

Lemma decimal_value_format_04d (n : N) : decimal_value (format_04d n) = n.
Proof. unfold format_04d. by rewrite decimal_value_zeros, decimal_value_py_str. Qed.

Lemma all_digits_zeros (k : nat) (s : string) :
  all_digits s = true -> all_digits (Str.zeros k s) = true.
Proof. intros Hs. induction k as [|k IH]; simpl; done. Qed.

Lemma format_04d_inj (i j : N) : format_04d i = format_04d j -> i = j.
Proof.
  intros Heq. rewrite <- (decimal_value_format_04d i), Heq.
  apply decimal_value_format_04d.
Qed.

Lemma frame_name_inj (i j : N) : frame_name i = frame_name j -> i = j.
Proof.
  unfold frame_name. intros Heq.
  apply (inj (String.app "frame_")) in Heq.
  by apply StrFacts.app_inv_tail, format_04d_inj in Heq.
Qed.

(** The index can be read back from the file name. *)
Lemma name_index_frame_name (n : N) : name_index (frame_name n) = Some n.
Proof.
  unfold name_index, frame_name.
  set (d := format_04d n).
  assert (String.length ("frame_" +:+ d +:+ ".png") - 4 = 6 + String.length d)%nat
    as -> by (rewrite !StrFacts.length_app; simpl; lia).
  assert (Str.take 6 ("frame_" +:+ d +:+ ".png") = "frame_") as ->
    by apply (StrFacts.take_app "frame_").
  assert (Str.drop (6 + String.length d) ("frame_" +:+ d +:+ ".png") = ".png") as ->.
  { change (Str.drop (String.length d) (d +:+ ".png") = ".png").
    apply StrFacts.drop_app. }
  assert (Str.slice 6 (6 + String.length d) ("frame_" +:+ d +:+ ".png") = d) as ->.
  { unfold Str.slice.
    replace (6 + String.length d - 6)%nat with (String.length d) by lia.
    change (Str.drop 6 ("frame_" +:+ d +:+ ".png")) with (d +:+ ".png").
    apply StrFacts.take_app. }
  assert (Str.nonempty d = true) as ->.
  { subst d. unfold format_04d.
    destruct (4 - String.length (py_str n))%nat; simpl; [|done].
    apply py_str_nonempty. }
  assert (all_digits d = true) as ->
    by (subst d; apply all_digits_zeros, all_digits_py_str).
  simpl. subst d. by rewrite decimal_value_format_04d.
Qed.

(** Joining the output folder with a frame name puts one separator
    between them, on both platforms. *)
Lemma output_path_of_eq (os : os_name) (n : N) :
  output_path_of os n = output_folder +:+ os_sep os +:+ frame_name n.
Proof.
  unfold output_path_of, frame_name.
  generalize (format_04d n +:+ ".png"). intros t.
  destruct os; vm_compute; reflexivity.
Qed.

Lemma output_path_of_inj (os : os_name) (i j : N) :
  output_path_of os i = output_path_of os j -> i = j.
Proof.
  rewrite !output_path_of_eq. intros Heq.
  apply (inj (String.app output_folder)), (inj (String.app (os_sep os))) in Heq.
  by apply frame_name_inj.
Qed.

(** ** The loop *)

Section Loop.

Context {Img : Type}.
Implicit Types (e : env (Img:=Img)) (w : world (Img:=Img)) (frames : list Img).

Lemma decodable_split (rs : list (read_result (Img:=Img))) :
  exists rest, rs = (Grab <$> decodable rs) ++ rest
               /\ (rest = [] \/ exists rest', rest = NoGrab :: rest').
Proof.
  induction rs as [|[frame|] rs IH]; simpl.
  - exists []. eauto.
  - destruct IH as (rest & Heq & Hrest). exists rest. split; [|done].
    cbn. by f_equal.
  - eexists. split; [done|]. eauto.
Qed.

Lemma no_throw_tail e c (frame : Img) frames :
  no_throw e c (frame :: frames) -> no_throw e (c + 1) frames.
Proof.
  intros H i img Hi. specialize (H (S i) img Hi).
  by replace (c + 1 + N.of_nat i) with (c + N.of_nat (S i)) by lia.
Qed.

Lemma no_throw_head e c (frame : Img) frames :
  no_throw e c (frame :: frames) ->
  imwrite_outcome e (output_path_of (platform e) c) frame <> Throws.
Proof.
  intros H. specialize (H O frame eq_refl).
  by replace (c + N.of_nat 0) with c in H by lia.
Qed.

(** Passes that decode a frame and write it without an exception are
    skipped over in one go. *)
Lemma while_true_passes e frames : forall rest c w fuel,
  no_throw e c frames ->
  while_true (length frames + fuel) e
    (State w (Capture true ((Grab <$> frames) ++ rest)) c)
  = while_true fuel e
      (State (after_passes e c frames w) (Capture true rest)
             (c + N.of_nat (length frames))).
Proof.
  induction frames as [|frame frames IH]; intros rest c w fuel Hok.
  - simpl. destruct w. unfold after_passes. simpl.
    by rewrite app_nil_r, N.add_0_r.
  - pose proof (no_throw_head _ _ _ _ Hok) as Hhead.
    apply no_throw_tail in Hok.
    cbn [length Nat.add while_true fmap list_fmap app].
    unfold loop_body, cap_read. cbn [cap st_world opened pending frame_count].
    fold (output_path_of (platform e) c).
    unfold cv2_imwrite.
    replace (c + N.of_nat (S (length frames)))
      with (c + 1 + N.of_nat (length frames)) by lia.
    destruct (imwrite_outcome e (output_path_of (platform e) c) frame) eqn:Hout;
      [| |done].
    + change (list_fmap _ _ Grab frames) with (Grab <$> frames).
      rewrite IH by done. do 2 f_equal.
      unfold after_passes, put_file, log. cbn. rewrite Hout.
      by rewrite <- !app_assoc.
    + change (list_fmap _ _ Grab frames) with (Grab <$> frames).
      rewrite IH by done. do 2 f_equal.
      unfold after_passes, log. cbn. rewrite Hout.
      by rewrite <- !app_assoc.
Qed.

(** The pass that finds no frame leaves the loop. *)
Lemma loop_body_break e w (c : N) (cp : capture (Img:=Img)) :
  opened cp = false \/ pending cp = [] \/ (exists rest, pending cp = NoGrab :: rest) ->
  exists cp', loop_body e (State w cp c) = Break (State (log CRead w) cp' c).
Proof.
  intros Hcp. unfold loop_body, cap_read. cbn [cap st_world frame_count].
  destruct cp as [[] rs]; cbn [opened pending] in *.
  - destruct Hcp as [? | [-> | [rest ->]]]; [done|..]; eauto.
  - eauto.
Qed.

(** A pass whose write raises ends the loop with that exception. *)
Lemma loop_body_raise e w (c : N) (frame : Img) rest :
  imwrite_outcome e (output_path_of (platform e) c) frame = Throws ->
  loop_body e (State w (Capture true (Grab frame :: rest)) c)
  = Raise cv2_error
      (State (log (CImwrite (output_path_of (platform e) c) frame) (log CRead w))
             (Capture true rest) c).
Proof.
  intros Hout. unfold loop_body, cap_read, cv2_imwrite.
  cbn [cap st_world opened pending frame_count].
  fold (output_path_of (platform e) c). by rewrite Hout.
Qed.

(** What a pass that continues has done. *)
Lemma loop_body_continue e (s s' : state (Img:=Img)) :
  loop_body e s = Continue s' ->
  exists (frame : Img) rest,
    opened (cap s) = true
    /\ pending (cap s) = Grab frame :: rest
    /\ imwrite_outcome e (output_path_of (platform e) (frame_count s)) frame <> Throws
    /\ frame_count s' = frame_count s + 1
    /\ cap s' = Capture true rest
    /\ calls (st_world s')
       = calls (st_world s)
         ++ [CRead; CImwrite (output_path_of (platform e) (frame_count s)) frame].
Proof.
  destruct s as [w [op rs] c]. unfold loop_body, cap_read, cv2_imwrite.
  cbn [cap st_world opened pending frame_count].
  fold (output_path_of (platform e) c).
  destruct op; [|done]. destruct rs as [|[frame|] rest]; [done| |done].
  destruct (imwrite_outcome e (output_path_of (platform e) c) frame) eqn:Hout;
    [| |done]; intros [= <-]; exists frame, rest; cbn;
    rewrite <- app_assoc; repeat split; congruence.
Qed.

(** A pass that does not continue leaves the counter alone. *)
Lemma loop_body_stop e (s : state (Img:=Img)) :
  match loop_body e s with
  | Continue _ => True
  | Break s' | Raise _ s' => frame_count s' = frame_count s
  end.
Proof.
  destruct s as [w [op rs] c]. unfold loop_body, cap_read, cv2_imwrite.
  cbn [cap st_world opened pending frame_count].
  destruct op; [|done]. destruct rs as [|[frame|] rest]; [done| |done].
  by destruct (imwrite_outcome e _ frame).
Qed.

(** At the start of every pass the counter is the number of reads, and
    of image writes, made since the loop was entered. *)
Lemma loop_reach_count e (s0 s : state (Img:=Img)) :
  loop_reach e s0 s ->
  frame_count s0 <= frame_count s
  /\ N.of_nat (reads (calls (st_world s)))
     = N.of_nat (reads (calls (st_world s0))) + (frame_count s - frame_count s0)
  /\ N.of_nat (length (imwrites (calls (st_world s))))
     = N.of_nat (length (imwrites (calls (st_world s0))))
       + (frame_count s - frame_count s0).
Proof.
  induction 1 as [|s s' _ (Hle & Hreads & Hwrites) Hpass].
  - rewrite N.sub_diag. lia.
  - destruct (loop_body_continue _ _ _ Hpass)
      as (frame & rest & _ & _ & _ & Hcount & _ & Hcalls).
    rewrite Hcalls, Hcount.
    assert (forall cs : list (call (Img:=Img)),
              reads (cs ++ [CRead; CImwrite (output_path_of (platform e)
                                              (frame_count s)) frame])
              = S (reads cs)) as Hr.
    { induction cs as [|[] cs IH]; cbn; by rewrite ?IH. }
    assert (forall cs : list (call (Img:=Img)),
              length (imwrites (cs ++ [CRead; CImwrite (output_path_of (platform e)
                                              (frame_count s)) frame]))
              = S (length (imwrites cs))) as Hw.
    { induction cs as [|[] cs IH]; cbn; by rewrite ?IH. }
    rewrite Hr, Hw. lia.
Qed.

Lemma loop_reach_trans e (s0 s1 s2 : state (Img:=Img)) :
  loop_reach e s0 s1 -> loop_reach e s1 s2 -> loop_reach e s0 s2.
Proof. intros H1 H2. induction H2; [done|]. by eapply reach_pass. Qed.

Lemma alike_log (c1 c2 : call (Img:=Img)) w1 w2 :
  anonymous c1 = anonymous c2 -> alike w1 w2 -> alike (log c1 w1) (log c2 w2).
Proof.
  intros Hc (Hd & Hv & Ho & Hcs). unfold alike, log. cbn.
  by rewrite !fmap_app, Hcs, Hd, Hv, Ho; cbn; rewrite Hc.
Qed.

(** The counter reaches a pass only through the file name: two passes
    from states that differ at most in the counter and in file names,
    whose writes both raise or both do not, end alike. *)
Lemma loop_body_alike e (s1 s2 : state (Img:=Img)) :
  cap s1 = cap s2 ->
  alike (st_world s1) (st_world s2) ->
  (forall (frame : Img) rest,
     pending (cap s1) = Grab frame :: rest ->
     imwrite_outcome e (output_path_of (platform e) (frame_count s1)) frame = Throws
     <-> imwrite_outcome e (output_path_of (platform e) (frame_count s2)) frame
         = Throws) ->
  flow_alike (loop_body e s1) (loop_body e s2).
Proof.
  destruct s1 as [w1 [op rs] c1], s2 as [w2 cp2 c2].
  cbn [cap st_world frame_count pending]. intros <- Hw Hthrow.
  assert (alike (log CRead w1) (log CRead w2)) as Hread by (by apply alike_log).
  unfold loop_body, cap_read, cv2_imwrite.
  cbn [cap st_world opened pending frame_count].
  fold (output_path_of (platform e) c1). fold (output_path_of (platform e) c2).
  destruct op; [|done]. destruct rs as [|[frame|] rest]; [done| |done].
  specialize (Hthrow frame rest eq_refl).
  assert (alike
            (log (CImwrite (output_path_of (platform e) c1) frame) (log CRead w1))
            (log (CImwrite (output_path_of (platform e) c2) frame) (log CRead w2)))
    as Hwrite by (by apply alike_log).
  destruct (imwrite_outcome e (output_path_of (platform e) c1) frame) eqn:H1;
    destruct (imwrite_outcome e (output_path_of (platform e) c2) frame) eqn:H2;
    cbn; try done;
    by destruct Hthrow as [Ha Hb];
       first [specialize (Ha eq_refl) | specialize (Hb eq_refl)].
Qed.

(** A state reached from [s] is [s] itself or lies behind the pass made
    from [s]. *)
Lemma loop_reach_first e (s t : state (Img:=Img)) :
  loop_reach e s t ->
  t = s \/ exists s1, loop_body e s = Continue s1 /\ loop_reach e s1 t.
Proof.
  induction 1 as [|t t' Hreach IH Hpass]; [by left|]. right.
  destruct IH as [-> | (s1 & Hs1 & Hrest)].
  - exists t'. split; [done|]. apply reach_entry.
  - exists s1. split; [done|]. by eapply reach_pass.
Qed.

(** Every state reached from [s] lies on the way to a state whose pass
    does not continue. *)
Lemma loop_reach_before_last e (s a b : state (Img:=Img)) :
  loop_reach e s a -> loop_reach e s b ->
  (forall s', loop_body e b <> Continue s') ->
  loop_reach e a b.
Proof.
  intros Ha. induction Ha as [|a0 a1 Ha0 IH Hpass]; intros Hb Hlast; [done|].
  specialize (IH Hb Hlast).
  destruct (loop_reach_first _ _ _ IH) as [-> | (s1 & Hs1 & Hrest)].
  - by destruct (Hlast a1).
  - rewrite Hpass in Hs1. by injection Hs1 as <-.
Qed.

(** What [while_true] returns is what the last pass returned, and the
    state of that pass was reached from the start through passes that
    continued. *)
Lemma while_true_reach e (fuel : nat) : forall (s : state (Img:=Img)) c,
  while_true fuel e s = Some c ->
  exists s_last,
    loop_reach e s s_last
    /\ match c with
       | Normal s' => loop_body e s_last = Break s'
       | Abrupt x s' => loop_body e s_last = Raise x s'
       end.
Proof.
  induction fuel as [|fuel IH]; intros s c Hrun; [done|].
  cbn [while_true] in Hrun.
  destruct (loop_body e s) as [s1|s1|x s1] eqn:Hbody.
  - destruct (IH _ _ Hrun) as (s_last & Hreach & Hlast).
    exists s_last. split; [|done].
    eapply loop_reach_trans; [|exact Hreach].
    eapply reach_pass; [apply reach_entry | exact Hbody].
  - injection Hrun as <-. exists s. split; [apply reach_entry | done].
  - injection Hrun as <-. exists s. split; [apply reach_entry | done].
Qed.

End Loop.

(** ** Whole runs *)

Section Runs.

Context {Img : Type}.
Implicit Types (e : env (Img:=Img)) (frames : list Img) (d : gset string)
  (f : gmap string Img) (v : gmap string (list (read_result (Img:=Img)))).

Lemma makedirs_ok e d f v :
  folder_ok e d f ->
  os_makedirs_exist_ok e output_folder (boot d f v)
  = Normal (World (ensured e d) f v [] [CMakedirs output_folder]).
Proof.
  intros Hok. unfold os_makedirs_exist_ok, boot, log, add_dirs, ensured. cbn.
  destruct (decide (output_folder ∈ d)) as [Hin|Hnin]; [done|].
  - destruct Hok as [?|[Hnone Hallow]]; [done|].
    rewrite Hnone, Hallow.
    destruct (decide (is_Some (None : option Img))) as [[? ?]|]; done.
Qed.

Lemma makedirs_fails e d f v :
  ~ folder_ok e d f ->
  os_makedirs_exist_ok e output_folder (boot d f v)
  = Abrupt OSError (refused e d f v).
Proof.
  intros Hno. unfold os_makedirs_exist_ok, boot, log, add_dirs, refused. cbn.
  destruct (decide (output_folder ∈ d)) as [Hin|Hnin].
  - destruct Hno. by left.
  - destruct (decide (is_Some (f !! output_folder))) as [|Hnone]; [done|].
    destruct (mkdir_allowed e output_folder) eqn:Hallow; [|done].
    destruct Hno. right. split; [|done].
    destruct (f !! output_folder) eqn:Hf; [|done]. destruct Hnone. eauto.
Qed.

(** The capture the loop is entered with. *)
Lemma ensured_has e d : output_folder ∈ ensured e d.
Proof.
  unfold ensured. case_decide; [done|].
  apply elem_of_union_l, elem_of_union_l. by apply elem_of_singleton.
Qed.

Lemma ensured_keeps e d : d ⊆ ensured e d.
Proof. unfold ensured. case_decide; [done|]. apply union_subseteq_r. Qed.

Lemma loop_entry_eq e d f v :
  exists cp rest,
    loop_entry (World (ensured e d) f v [] [CMakedirs output_folder])
    = State (entered e d f v) cp 0
    /\ ((cp = Capture true ((Grab <$> source_frames v) ++ rest)
         /\ (rest = [] \/ exists rest', rest = NoGrab :: rest'))
        \/ (cp = Capture false [] /\ source_frames v = [])).
Proof.
  unfold loop_entry, cv2_VideoCapture, source_frames, entered, log. cbn.
  destruct (v !! video_path) as [rs|] eqn:Hv; cbn.
  - destruct (decodable_split rs) as (rest & Hrs & Hrest).
    exists (Capture true rs), rest. split; [done|]. left. split; [|done].
    by rewrite <- Hrs.
  - exists (Capture false []), []. split; [done|]. by right.
Qed.

(** A run in which neither the folder creation nor any write raises
    finishes, and leaves the world [finished]. *)
Lemma script_finishes e d f v (fuel : nat) :
  folder_ok e d f ->
  no_throw e 0 (source_frames v) ->
  (length (source_frames v) < fuel)%nat ->
  script fuel e (boot d f v) = Some (Normal (finished e d f v (source_frames v))).
Proof.
  intros Hdir Hok Hfuel. unfold script. rewrite makedirs_ok by done.
  destruct (loop_entry_eq e d f v) as (cp & rest & -> & Hcp).
  set (frames := source_frames v) in *.
  replace fuel with (length frames + S (fuel - length frames - 1))%nat by lia.
  destruct Hcp as [[-> Hrest] | [-> Hnil]].
  - rewrite while_true_passes by done. cbn [while_true].
    destruct (loop_body_break e (after_passes e 0 frames (entered e d f v))
                (0 + N.of_nat (length frames)) (Capture true rest)) as [cp' ->].
    { cbn. tauto. }
    by cbn.
  - rewrite Hnil. cbn [length Nat.add while_true].
    destruct (loop_body_break e (entered e d f v) 0 (Capture false [])) as [cp' ->].
    { by left. }
    reflexivity.
Qed.

(** A run in which the first write to raise is the one of frame [k]
    ends there, with [cv2.error]. *)
Lemma script_aborts e d f v (fuel k : nat) (frame : Img) :
  folder_ok e d f ->
  source_frames v !! k = Some frame ->
  no_throw e 0 (take k (source_frames v)) ->
  imwrite_outcome e (output_path_of (platform e) (N.of_nat k)) frame = Throws ->
  (k < fuel)%nat ->
  script fuel e (boot d f v)
  = Some (Abrupt cv2_error (aborted e d f v (take k (source_frames v)) frame)).
Proof.
  intros Hdir Hk Hok Hthrow Hfuel. unfold script. rewrite makedirs_ok by done.
  destruct (loop_entry_eq e d f v) as (cp & rest & -> & Hcp).
  set (frames := source_frames v) in *.
  destruct Hcp as [[-> _] | [_ Hnil]]; [|by rewrite Hnil in Hk].
  pose proof (take_drop_middle frames k frame Hk) as Hsplit.
  assert (length (take k frames) = k) as Hlen.
  { apply length_take_le. apply lookup_lt_Some in Hk. lia. }
  rewrite <- Hsplit at 1.
  rewrite fmap_app, <- app_assoc. cbn [fmap list_fmap app].
  replace fuel with (length (take k frames) + S (fuel - k - 1))%nat by lia.
  rewrite while_true_passes by done. cbn [while_true].
  rewrite loop_body_raise by (by rewrite Hlen).
  unfold aborted. by rewrite Hlen.
Qed.

Lemma while_true_fuel_mono e (fuel fuel' : nat) (s : state (Img:=Img)) r :
  while_true fuel e s = Some r -> (fuel <= fuel')%nat ->
  while_true fuel' e s = Some r.
Proof.
  revert fuel' s. induction fuel as [|fuel IH]; intros fuel' s Hrun Hle; [done|].
  destruct fuel' as [|fuel']; [lia|]. cbn [while_true] in *.
  destruct (loop_body e s); [|done..]. apply IH; [done|lia].
Qed.

Lemma script_fuel_mono e (fuel fuel' : nat) (w : world (Img:=Img)) r :
  script fuel e w = Some r -> (fuel <= fuel')%nat -> script fuel' e w = Some r.
Proof.
  unfold script. intros Hrun Hle.
  destruct (os_makedirs_exist_ok e output_folder w) as [w1|x w1]; [|done].
  destruct (while_true fuel e (loop_entry w1)) as [c|] eqn:Hloop; [|done].
  by rewrite (while_true_fuel_mono _ _ _ _ _ Hloop Hle).
Qed.

Lemma folder_ok_dec e d f : folder_ok e d f \/ ~ folder_ok e d f.
Proof.
  unfold folder_ok.
  destruct (decide (output_folder ∈ d)); [by left; left|].
  destruct (f !! output_folder) eqn:Hf; [right; intros [?|[? ?]]; done|].
  destruct (mkdir_allowed e output_folder) eqn:Hallow; [by left; right|].
  right. intros [?|[? ?]]; done.
Qed.

(** Either no write raises, or there is a first one that does. *)
Lemma first_throw e frames : forall c,
  no_throw e c frames
  \/ exists (k : nat) (frame : Img),
       frames !! k = Some frame
       /\ no_throw e c (take k frames)
       /\ imwrite_outcome e (output_path_of (platform e) (c + N.of_nat k)) frame
          = Throws.
Proof.
  induction frames as [|frame frames IH]; intros c.
  - left. intros i img Hi. done.
  - destruct (imwrite_outcome e (output_path_of (platform e) c) frame) eqn:Hout.
    3:{ right. exists O, frame. split; [done|]. split.
        - intros i img Hi. done.
        - by replace (c + N.of_nat 0) with c by lia. }
    all: destruct (IH (c + 1)) as [Hok | (k & fr & Hk & Hok & Hthrow)].
    all: try (left; intros [|i] img Hi;
              [ injection Hi as <-; replace (c + N.of_nat 0) with c by lia;
                by rewrite Hout
              | replace (c + N.of_nat (S i)) with (c + 1 + N.of_nat i) by lia;
                by apply Hok ]).
    all: right; exists (S k), fr; split; [done|]; split;
      [ intros [|i] img Hi;
        [ injection Hi as <-; replace (c + N.of_nat 0) with c by lia;
          by rewrite Hout
        | replace (c + N.of_nat (S i)) with (c + 1 + N.of_nat i) by lia;
          by apply Hok ]
      | by replace (c + N.of_nat (S k)) with (c + 1 + N.of_nat k) by lia ].
Qed.

(** Every run that ends does so in one of three ways. *)
Lemma script_result e d f v (fuel : nat) r :
  script fuel e (boot d f v) = Some r ->
  (~ folder_ok e d f /\ r = Abrupt OSError (refused e d f v))
  \/ (folder_ok e d f /\ no_throw e 0 (source_frames v)
      /\ r = Normal (finished e d f v (source_frames v)))
  \/ (folder_ok e d f /\ exists (k : nat) (frame : Img),
        source_frames v !! k = Some frame
        /\ no_throw e 0 (take k (source_frames v))
        /\ imwrite_outcome e (output_path_of (platform e) (N.of_nat k)) frame
           = Throws
        /\ r = Abrupt cv2_error (aborted e d f v (take k (source_frames v)) frame)).
Proof.
  intros Hrun.
  destruct (folder_ok_dec e d f) as [Hdir|Hdir].
  - right.
    destruct (first_throw e (source_frames v) 0)
      as [Hok | (k & frame & Hk & Hok & Hthrow)].
    + left. split; [done|]. split; [done|].
      pose proof (script_finishes e d f v
                    (fuel `max` S (length (source_frames v))) Hdir Hok) as Hfin.
      rewrite (script_fuel_mono _ _ _ _ _ Hrun) in Hfin by lia.
      specialize (Hfin ltac:(lia)). by injection Hfin.
    + right. split; [done|]. exists k, frame.
      rewrite N.add_0_l in Hthrow. do 3 (split; [done|]).
      pose proof (script_aborts e d f v (fuel `max` S k) k frame
                    Hdir Hk Hok Hthrow) as Hab.
      rewrite (script_fuel_mono _ _ _ _ _ Hrun) in Hab by lia.
      specialize (Hab ltac:(lia)). by injection Hab.
  - left. split; [done|].
    unfold script in Hrun. rewrite makedirs_fails in Hrun by done.
    by injection Hrun.
Qed.

End Runs.

(** ** What a run leaves in the call log and on disk *)

Section Traces.

Context {Img : Type}.
Implicit Types (e : env (Img:=Img)) (frames : list Img) (d : gset string)
  (f m : gmap string Img) (v : gmap string (list (read_result (Img:=Img))))
  (cs : list (call (Img:=Img))).

Lemma imwrites_app cs1 cs2 : imwrites (cs1 ++ cs2) = imwrites cs1 ++ imwrites cs2.
Proof.
  induction cs1 as [|c cs1 IH]; [done|].
  destruct c; cbn [app imwrites]; by rewrite IH.
Qed.

Lemma reads_app cs1 cs2 : reads (cs1 ++ cs2) = (reads cs1 + reads cs2)%nat.
Proof.
  induction cs1 as [|c cs1 IH]; [done|].
  destruct c; cbn [app reads]; by rewrite IH.
Qed.

Lemma imwrites_pass_calls_length os frames : forall c,
  length (imwrites (pass_calls os c frames)) = length frames.
Proof. induction frames as [|fr frames IH]; intros c; cbn; [done|]. by rewrite IH. Qed.

Lemma reads_pass_calls os frames : forall c,
  reads (pass_calls os c frames) = length frames.
Proof. induction frames as [|fr frames IH]; intros c; cbn; [done|]. by rewrite IH. Qed.

(** The [i]-th write of the passes carries frame [i] and its path. *)
Lemma imwrites_pass_calls_lookup os frames : forall c (i : nat),
  imwrites (pass_calls os c frames) !! i
  = (fun img => (output_path_of os (c + N.of_nat i), img)) <$> frames !! i.
Proof.
  induction frames as [|fr frames IH]; intros c i; [done|].
  cbn [pass_calls imwrites]. destruct i as [|i]; cbn.
  - by rewrite N.add_0_r.
  - rewrite IH. by replace (c + 1 + N.of_nat i) with (c + N.pos (Pos.of_succ_nat i)) by lia.
Qed.

(** Paths no pass writes to keep their content. *)
Lemma pass_files_other e frames : forall c m (p : string),
  (forall i : nat, (i < length frames)%nat ->
     p <> output_path_of (platform e) (c + N.of_nat i)) ->
  pass_files e c frames m !! p = m !! p.
Proof.
  induction frames as [|fr frames IH]; intros c m p Hp; [done|].
  cbn [pass_files]. rewrite IH.
  - assert (p <> output_path_of (platform e) c) as Hne.
    { specialize (Hp O ltac:(simpl; lia)). by rewrite N.add_0_r in Hp. }
    destruct (imwrite_outcome e _ fr); [|done..].
    by rewrite lookup_insert_ne.
  - intros i Hi. specialize (Hp (S i) ltac:(simpl; lia)).
    by replace (c + 1 + N.of_nat i) with (c + N.of_nat (S i)) by lia.
Qed.

(** A frame whose write succeeded is on disk under its own path. *)
Lemma pass_files_written e frames : forall c m (i : nat) (img : Img),
  frames !! i = Some img ->
  imwrite_outcome e (output_path_of (platform e) (c + N.of_nat i)) img = Written ->
  pass_files e c frames m !! output_path_of (platform e) (c + N.of_nat i) = Some img.
Proof.
  induction frames as [|fr frames IH]; intros c m i img Hi Hout; [done|].
  cbn [pass_files]. destruct i as [|i].
  - injection Hi as ->. rewrite N.add_0_r in *. rewrite Hout.
    rewrite pass_files_other; [by rewrite lookup_insert_eq|].
    intros j _ Heq. apply output_path_of_inj in Heq. lia.
  - replace (c + N.of_nat (S i)) with (c + 1 + N.of_nat i) in * by lia.
    by apply IH.
Qed.

(** A frame whose write was refused does not reach the disk. *)
Lemma pass_files_refused e frames : forall c m (i : nat) (img : Img),
  frames !! i = Some img ->
  imwrite_outcome e (output_path_of (platform e) (c + N.of_nat i)) img = Refused ->
  m !! output_path_of (platform e) (c + N.of_nat i) = None ->
  pass_files e c frames m !! output_path_of (platform e) (c + N.of_nat i) = None.
Proof.
  induction frames as [|fr frames IH]; intros c m i img Hi Hout Hm; [done|].
  cbn [pass_files]. destruct i as [|i].
  - injection Hi as ->. rewrite N.add_0_r in *. rewrite Hout.
    rewrite pass_files_other; [done|].
    intros j _ Heq. apply output_path_of_inj in Heq. lia.
  - replace (c + N.of_nat (S i)) with (c + 1 + N.of_nat i) in * by lia.
    apply (IH _ _ _ img); [done..|].
    destruct (imwrite_outcome e _ fr); [|done..].
    rewrite lookup_insert_ne; [done|].
    intros Heq. apply output_path_of_inj in Heq. lia.
Qed.

(** Files on disk stay on disk (possibly overwritten). *)
Lemma pass_files_kept e frames : forall c m (p : string),
  is_Some (m !! p) -> is_Some (pass_files e c frames m !! p).
Proof.
  induction frames as [|fr frames IH]; intros c m p Hp; [done|].
  cbn [pass_files]. apply IH.
  destruct (imwrite_outcome e _ fr); [|done..].
  by apply lookup_insert_is_Some'; right.
Qed.

(** Without a single write the disk is as it was. *)
Lemma pass_files_nil e (c : N) m : pass_files e c [] m = m.
Proof. done. Qed.

Lemma calls_finished e d f v frames :
  calls (finished e d f v frames)
  = [CMakedirs output_folder; CVideoCapture video_path]
    ++ pass_calls (platform e) 0 frames ++ [CRead; CRelease].
Proof. unfold finished, print, log, after_passes, entered. cbn. by rewrite <- !app_assoc. Qed.

Lemma calls_aborted e d f v frames (frame : Img) :
  calls (aborted e d f v frames frame)
  = [CMakedirs output_folder; CVideoCapture video_path]
    ++ pass_calls (platform e) 0 frames
    ++ [CRead; CImwrite (output_path_of (platform e) (N.of_nat (length frames))) frame].
Proof. unfold aborted, log, after_passes, entered. cbn. by rewrite <- !app_assoc. Qed.

Lemma imwrites_finished e d f v frames :
  imwrites (calls (finished e d f v frames))
  = imwrites (pass_calls (platform e) 0 frames).
Proof.
  rewrite calls_finished. cbn [app imwrites].
  by rewrite imwrites_app, app_nil_r.
Qed.

Lemma imwrites_aborted e d f v frames (frame : Img) :
  imwrites (calls (aborted e d f v frames frame))
  = imwrites (pass_calls (platform e) 0 frames)
    ++ [(output_path_of (platform e) (N.of_nat (length frames)), frame)].
Proof. rewrite calls_aborted. cbn [app imwrites]. by rewrite imwrites_app. Qed.

(** In every run that ends, the [i]-th image write carries the [i]-th
    decoded frame and goes to the path numbered [i]. *)
Lemma run_imwrites_lookup e d f v (fuel : nat) r (i : nat) (p : string) (img : Img) :
  script fuel e (boot d f v) = Some r ->
  imwrites (calls (world_of r)) !! i = Some (p, img) ->
  source_frames v !! i = Some img /\ p = output_path_of (platform e) (N.of_nat i).
Proof.
  intros Hrun Hi.
  destruct (script_result _ _ _ _ _ _ Hrun)
    as [[_ ->] | [(_ & _ & ->) | (_ & k & frame & Hk & _ & _ & ->)]];
    cbn [world_of] in Hi.
  - done.
  - rewrite imwrites_finished, imwrites_pass_calls_lookup in Hi.
    destruct (source_frames v !! i) as [img'|]; [|done].
    cbn in Hi. rewrite N.add_0_l in Hi. by injection Hi as <- <-.
  - assert (length (take k (source_frames v)) = k) as Hlen.
    { apply length_take_le. apply lookup_lt_Some in Hk. lia. }
    rewrite imwrites_aborted, Hlen in Hi.
    destruct (decide (i < k)%nat) as [Hlt|Hge].
    + rewrite lookup_app_l in Hi
        by (by rewrite imwrites_pass_calls_length, Hlen).
      rewrite imwrites_pass_calls_lookup, lookup_take_lt in Hi by done.
      destruct (source_frames v !! i) as [img'|]; [|done].
      cbn in Hi. rewrite N.add_0_l in Hi. by injection Hi as <- <-.
    + rewrite lookup_app_r in Hi
        by (rewrite imwrites_pass_calls_length, Hlen; lia).
      rewrite imwrites_pass_calls_length, Hlen in Hi.
      destruct (i - k)%nat as [|n] eqn:Hik; [|done].
      assert (i = k) as -> by lia. cbn in Hi. by injection Hi as <- <-.
Qed.

End Traces.

(** * The extractor's properties, C1 to C10 *)

(** C1, as stated, does not hold: when every write returns [False] the
    run over three frames ends normally, makes its three writes and
    reports three frames, and not one file has been created. *)
Lemma refused_writes_leave_no_files :
  exists w',
    script 4 (Demo.env_all_refused Nt)
      (boot Demo.no_dirs Demo.no_files (Demo.video [10; 20; 30]%nat))
    = Some (Normal w')
    /\ length (imwrites (calls w')) = 3%nat
    /\ files w' = ∅
    /\ stdout w' = ["Done! Extracted 3 frames."].
Proof.
  assert (source_frames (Demo.video [10; 20; 30]%nat) = [10; 20; 30]%nat) as Hsrc.
  { unfold source_frames, Demo.video. by rewrite lookup_singleton_eq. }
  eexists. split.
  - apply script_finishes.
    + right. split; [apply lookup_empty | reflexivity].
    + intros i img _. discriminate.
    + rewrite Hsrc. simpl. lia.
  - rewrite Hsrc, imwrites_finished, imwrites_pass_calls_length.
    split; [done|]. split; [reflexivity|]. vm_compute. reflexivity.
Qed.

(** C1, amended.  Over a source that yields [n] decodable
    frames, a run that ends normally has made exactly [n] image writes,
    the [i]-th of them carrying frame [i] under its own path; the paths
    are pairwise distinct, each frame whose write succeeded is on disk
    under its path, all other files are untouched, and the one line
    printed reports [n].  The run does end normally whenever the folder
    can be ensured and no write raises. *)
Theorem count_correctness {Img : Type} (e : env (Img:=Img)) (d : gset string)
    (f : gmap string Img) (v : gmap string (list read_result)) (fuel : nat) :
  (forall w',
     script fuel e (boot d f v) = Some (Normal w') ->
     length (imwrites (calls w')) = length (source_frames v)
     /\ (forall (i : nat) (img : Img), source_frames v !! i = Some img ->
           imwrites (calls w') !! i
           = Some (output_path_of (platform e) (N.of_nat i), img)
           /\ (imwrite_outcome e (output_path_of (platform e) (N.of_nat i)) img
               = Written ->
               files w' !! output_path_of (platform e) (N.of_nat i) = Some img))
     /\ (forall i j : nat, i <> j ->
           output_path_of (platform e) (N.of_nat i)
           <> output_path_of (platform e) (N.of_nat j))
     /\ (forall p : string,
           (forall i : nat, (i < length (source_frames v))%nat ->
              p <> output_path_of (platform e) (N.of_nat i)) ->
           files w' !! p = f !! p)
     /\ stdout w'
        = ["Done! Extracted " +:+ py_str (N.of_nat (length (source_frames v)))
           +:+ " frames."])
  /\ (folder_ok e d f ->
      no_throw e 0 (source_frames v) ->
      (length (source_frames v) < fuel)%nat ->
      exists w', script fuel e (boot d f v) = Some (Normal w')).
Proof.
  split.
  - intros w' Hrun.
    destruct (script_result _ _ _ _ _ _ Hrun)
      as [[_ Hr] | [(_ & _ & Hr) | (_ & k & frame & _ & _ & _ & Hr)]];
      [done| |done].
    injection Hr as ->.
    split; [by rewrite imwrites_finished, imwrites_pass_calls_length|].
    split.
    { intros i img Hi. split.
      - rewrite imwrites_finished, imwrites_pass_calls_lookup, Hi. cbn.
        by rewrite N.add_0_l.
      - intros Hout. cbn.
        rewrite <- (N.add_0_l (N.of_nat i)) in Hout |- *.
        by apply pass_files_written. }
    split.
    { intros i j Hne Heq. apply output_path_of_inj in Heq. lia. }
    split; [|done].
    intros p Hp. cbn. apply pass_files_other.
    intros i Hi. rewrite N.add_0_l. by apply Hp.
  - intros Hdir Hok Hfuel. eexists. by apply script_finishes.
Qed.

(** A three-frame video in an empty world, on either platform family. *)
Lemma count_correctness_witness :
  exists w',
    script 4 (Demo.env_ok Nt) (boot Demo.no_dirs Demo.no_files (Demo.video [10; 20; 30]%nat))
    = Some (Normal w')
    /\ imwrites (calls w')
       = [("H:\H_downloads\allpng\frame_0000.png", 10%nat);
          ("H:\H_downloads\allpng\frame_0001.png", 20%nat);
          ("H:\H_downloads\allpng\frame_0002.png", 30%nat)]
    /\ files w' !! "H:\H_downloads\allpng\frame_0001.png" = Some 20%nat
    /\ stdout w' = ["Done! Extracted 3 frames."].
Proof.
  assert (source_frames (Demo.video [10; 20; 30]%nat) = [10; 20; 30]%nat) as Hsrc.
  { unfold source_frames, Demo.video. by rewrite lookup_singleton_eq. }
  destruct (count_correctness (Demo.env_ok Nt) Demo.no_dirs Demo.no_files
              (Demo.video [10; 20; 30]%nat) 4) as [Hall Hends].
  destruct Hends as [w' Hrun].
  { right. split; [apply lookup_empty | reflexivity]. }
  { intros i img _. discriminate. }
  { rewrite Hsrc. simpl. lia. }
  destruct (Hall w' Hrun) as (Hlen & Hwrites & _ & _ & Hout).
  exists w'. split; [exact Hrun|]. rewrite Hsrc in *.
  destruct (Hwrites 0%nat 10%nat eq_refl) as [H0 _].
  destruct (Hwrites 1%nat 20%nat eq_refl) as [H1 F1].
  destruct (Hwrites 2%nat 30%nat eq_refl) as [H2 _].
  split.
  - destruct (imwrites (calls w')) as [|a [|b [|c [|? ?]]]]; try discriminate Hlen.
    cbn in H0, H1, H2. injection H0 as ->. injection H1 as ->. injection H2 as ->.
    vm_compute. reflexivity.
  - split; [exact (F1 eq_refl)|]. rewrite Hout. vm_compute. reflexivity.
Defined.

(** C2, as stated, does not hold: with no video to open the run neither
    raises nor stops early; it ends normally and reports zero frames. *)
Lemma unopenable_source_completes :
  Demo.no_video !! video_path = None
  /\ (exists w',
        script 1 (Demo.env_ok Nt) (boot Demo.no_dirs Demo.no_files Demo.no_video)
        = Some (Normal w')
        /\ stdout w' = ["Done! Extracted 0 frames."])
  /\ (forall (fuel : nat) (x : exn) w',
        script fuel (Demo.env_ok Nt) (boot Demo.no_dirs Demo.no_files Demo.no_video)
        <> Some (Abrupt x w')).
Proof.
  assert (folder_ok (Demo.env_ok Nt) Demo.no_dirs Demo.no_files) as Hdir.
  { right. split; [apply lookup_empty | reflexivity]. }
  assert (source_frames Demo.no_video = []) as Hsrc by reflexivity.
  split; [apply lookup_empty|]. split.
  - eexists. split.
    + apply script_finishes; [done| |rewrite Hsrc; simpl; lia].
      intros i img Hi. by rewrite Hsrc in Hi.
    + reflexivity.
  - intros fuel x w' Hrun.
    destruct (script_result _ _ _ _ _ _ Hrun)
      as [[Hno _] | [(_ & _ & Hr) | (_ & k & frame & Hk & _)]].
    + by destruct Hno.
    + discriminate Hr.
    + by rewrite Hsrc in Hk.
Qed.

(** C2, amended.  When nothing can be opened at [video_path] and the folder
    can be ensured, the run ends normally: one read is made and finds no
    frame, no image is written, the files on disk are untouched, the folder
    exists, and the line printed reports zero frames. *)
Theorem unopenable_source_run {Img : Type} (e : env (Img:=Img)) (d : gset string)
    (f : gmap string Img) (v : gmap string (list read_result)) (fuel : nat) :
  v !! video_path = None ->
  folder_ok e d f ->
  (0 < fuel)%nat ->
  exists w',
    script fuel e (boot d f v) = Some (Normal w')
    /\ reads (calls w') = 1%nat
    /\ imwrites (calls w') = []
    /\ files w' = f
    /\ output_folder ∈ dirs w'
    /\ d ⊆ dirs w'
    /\ stdout w' = ["Done! Extracted 0 frames."].
Proof.
  intros Hv Hdir Hfuel.
  assert (source_frames v = []) as Hsrc by (unfold source_frames; by rewrite Hv).
  exists (finished e d f v (source_frames v)). split.
  - apply script_finishes; [done| |rewrite Hsrc; simpl; lia].
    intros i img Hi. by rewrite Hsrc in Hi.
  - rewrite Hsrc. do 3 (split; [done|]).
    split; [apply ensured_has|]. split; [apply ensured_keeps|done].
Qed.

Lemma unopenable_source_run_witness :
  exists w',
    script 1 (Demo.env_ok Posix) (boot Demo.no_dirs Demo.no_files Demo.no_video)
    = Some (Normal w')
    /\ imwrites (calls w') = []
    /\ stdout w' = ["Done! Extracted 0 frames."].
Proof.
  destruct (unopenable_source_run (Demo.env_ok Posix) Demo.no_dirs Demo.no_files
              Demo.no_video 1)
    as (w' & Hrun & _ & Hwrites & _ & _ & _ & Hout).
  - apply lookup_empty.
  - right. split; [apply lookup_empty | reflexivity].
  - lia.
  - exists w'. auto.
Defined.

(** C3, as stated, does not hold: a write that fails by returning [False]
    stops nothing.  Here the first of two writes is refused; the second
    frame is still decoded and written, and the run reports two frames
    with one file on disk. *)
Lemma refused_write_goes_unnoticed :
  imwrite_outcome (Demo.env_first_refused Nt) (output_path_of Nt 0) 10%nat = Refused
  /\ exists w',
       script 3 (Demo.env_first_refused Nt)
         (boot Demo.no_dirs Demo.no_files (Demo.video [10; 20]%nat))
       = Some (Normal w')
       /\ imwrites (calls w')
          = [("H:\H_downloads\allpng\frame_0000.png", 10%nat);
             ("H:\H_downloads\allpng\frame_0001.png", 20%nat)]
       /\ reads (calls w') = 3%nat
       /\ files w' !! "H:\H_downloads\allpng\frame_0000.png" = None
       /\ files w' !! "H:\H_downloads\allpng\frame_0001.png" = Some 20%nat
       /\ stdout w' = ["Done! Extracted 2 frames."].
Proof.
  split; [vm_compute; reflexivity|].
  assert (source_frames (Demo.video [10; 20]%nat) = [10; 20]%nat) as Hsrc.
  { unfold source_frames, Demo.video. by rewrite lookup_singleton_eq. }
  eexists. split.
  - apply script_finishes.
    + right. split; [apply lookup_empty | reflexivity].
    + rewrite Hsrc. intros [|[|i]] img Hi; [| |done]; injection Hi as <-;
        vm_compute; discriminate.
    + rewrite Hsrc. simpl. lia.
  - rewrite Hsrc, imwrites_finished, calls_finished, !reads_app, reads_pass_calls.
    split; [vm_compute; reflexivity|]. split; [reflexivity|].
    split; [|split; [|vm_compute; reflexivity]].
    + apply (pass_files_refused (Demo.env_first_refused Nt) [10; 20]%nat 0 _ 0%nat 10%nat);
        [done | vm_compute; reflexivity | apply lookup_empty].
    + apply (pass_files_written (Demo.env_first_refused Nt) [10; 20]%nat 0 _ 1%nat 20%nat);
        [done | vm_compute; reflexivity].
Qed.

(** C3, amended.  A write that raises ends the run there: the exception
    reaches the top level, the failing write is the last library call,
    exactly the frames up to it were decoded, nothing is printed, and the
    files written before it (and those already on disk) remain.  A write
    that returns [False] is not noticed: when no write raises, the run ends
    normally and reports every decoded frame, written or not. *)
Theorem write_failure_policy {Img : Type} (e : env (Img:=Img)) (d : gset string)
    (f : gmap string Img) (v : gmap string (list read_result)) (fuel : nat) :
  folder_ok e d f ->
  (forall (k : nat) (frame : Img),
     source_frames v !! k = Some frame ->
     no_throw e 0 (take k (source_frames v)) ->
     imwrite_outcome e (output_path_of (platform e) (N.of_nat k)) frame = Throws ->
     (k < fuel)%nat ->
     exists w',
       script fuel e (boot d f v) = Some (Abrupt cv2_error w')
       /\ last (calls w')
          = Some (CImwrite (output_path_of (platform e) (N.of_nat k)) frame)
       /\ reads (calls w') = S k
       /\ length (imwrites (calls w')) = S k
       /\ stdout w' = []
       /\ (forall (i : nat) (img : Img),
             (i < k)%nat -> source_frames v !! i = Some img ->
             imwrite_outcome e (output_path_of (platform e) (N.of_nat i)) img = Written ->
             files w' !! output_path_of (platform e) (N.of_nat i) = Some img)
       /\ (forall p : string, is_Some (f !! p) -> is_Some (files w' !! p))
       /\ files w' !! output_path_of (platform e) (N.of_nat k)
          = f !! output_path_of (platform e) (N.of_nat k))
  /\ (no_throw e 0 (source_frames v) ->
      (length (source_frames v) < fuel)%nat ->
      exists w',
        script fuel e (boot d f v) = Some (Normal w')
        /\ length (imwrites (calls w')) = length (source_frames v)
        /\ reads (calls w') = S (length (source_frames v))
        /\ stdout w'
           = ["Done! Extracted " +:+ py_str (N.of_nat (length (source_frames v)))
              +:+ " frames."]
        /\ (forall (i : nat) (img : Img),
              source_frames v !! i = Some img ->
              imwrite_outcome e (output_path_of (platform e) (N.of_nat i)) img = Refused ->
              f !! output_path_of (platform e) (N.of_nat i) = None ->
              files w' !! output_path_of (platform e) (N.of_nat i) = None)).
Proof.
  intros Hdir. split.
  - intros k frame Hk Hok Hthrow Hfuel.
    assert (length (take k (source_frames v)) = k) as Hlen.
    { apply length_take_le. apply lookup_lt_Some in Hk. lia. }
    exists (aborted e d f v (take k (source_frames v)) frame).
    split; [by apply script_aborts|].
    rewrite calls_aborted, Hlen.
    split.
    { rewrite !app_assoc.
      change [CRead; CImwrite (output_path_of (platform e) (N.of_nat k)) frame]
        with ([CRead] ++ [CImwrite (output_path_of (platform e) (N.of_nat k)) frame]).
      by rewrite app_assoc, last_snoc. }
    split.
    { cbn [app reads]. rewrite reads_app, reads_pass_calls, Hlen. simpl. lia. }
    split.
    { cbn [app imwrites]. rewrite imwrites_app, length_app,
        imwrites_pass_calls_length, Hlen. simpl. lia. }
    split; [done|]. cbn.
    split; [|split].
    + intros i img Hi Himg Hout.
      rewrite <- (N.add_0_l (N.of_nat i)) in Hout |- *.
      apply pass_files_written; [|done]. by rewrite lookup_take_lt.
    + intros p Hp. by apply pass_files_kept.
    + apply pass_files_other. intros i Hi Heq. rewrite Hlen in Hi.
      apply output_path_of_inj in Heq. lia.
  - intros Hok Hfuel.
    exists (finished e d f v (source_frames v)).
    split; [by apply script_finishes|].
    split; [by rewrite imwrites_finished, imwrites_pass_calls_length|].
    split.
    { rewrite calls_finished. cbn [app reads].
      rewrite reads_app, reads_pass_calls. simpl. lia. }
    split; [done|].
    intros i img Hi Hout Hf. cbn.
    rewrite <- (N.add_0_l (N.of_nat i)) in Hout, Hf |- *.
    by apply (pass_files_refused _ _ _ _ _ img).
Qed.

(** The second of three writes raises: the run stops at it, with the first
    frame on disk and nothing reported. *)
Lemma write_failure_policy_witness :
  exists w',
    script 2 (Demo.env_second_throws Nt)
      (boot Demo.no_dirs Demo.no_files (Demo.video [10; 20; 30]%nat))
    = Some (Abrupt cv2_error w')
    /\ last (calls w') = Some (CImwrite "H:\H_downloads\allpng\frame_0001.png" 20%nat)
    /\ reads (calls w') = 2%nat
    /\ stdout w' = []
    /\ files w' !! "H:\H_downloads\allpng\frame_0000.png" = Some 10%nat.
Proof.
  assert (source_frames (Demo.video [10; 20; 30]%nat) = [10; 20; 30]%nat) as Hsrc.
  { unfold source_frames, Demo.video. by rewrite lookup_singleton_eq. }
  assert (folder_ok (Demo.env_second_throws Nt) Demo.no_dirs Demo.no_files) as Hdir.
  { right. split; [apply lookup_empty | reflexivity]. }
  destruct (write_failure_policy (Demo.env_second_throws Nt) Demo.no_dirs
              Demo.no_files (Demo.video [10; 20; 30]%nat) 2 Hdir) as [Hthrow _].
  destruct (Hthrow 1%nat 20%nat)
    as (w' & Hrun & Hlast & Hreads & _ & Hout & Hfiles & _).
  - by rewrite Hsrc.
  - rewrite Hsrc. intros [|i] img Hi; [|done]. injection Hi as <-.
    vm_compute. discriminate.
  - vm_compute. reflexivity.
  - lia.
  - exists w'. split; [exact Hrun|]. split; [exact Hlast|].
    split; [exact Hreads|]. split; [exact Hout|].
    apply (Hfiles 0%nat 10%nat); [lia | by rewrite Hsrc | vm_compute; reflexivity].
Defined.

(** C4, as stated, does not hold: the frame decoded first is passed to a
    write under [frame_0000.png], the write returns [False], and at the
    end of the run no file of that name exists. *)
Lemma refused_frame_not_on_disk :
  exists w',
    script 3 (Demo.env_first_refused Posix)
      (boot Demo.no_dirs Demo.no_files (Demo.video [10; 20]%nat))
    = Some (Normal w')
    /\ source_frames (Demo.video [10; 20]%nat) !! 0%nat = Some 10%nat
    /\ imwrites (calls w') !! 0%nat
       = Some ("H:\H_downloads\allpng/frame_0000.png", 10%nat)
    /\ files w' !! "H:\H_downloads\allpng/frame_0000.png" = None.
Proof.
  assert (source_frames (Demo.video [10; 20]%nat) = [10; 20]%nat) as Hsrc.
  { unfold source_frames, Demo.video. by rewrite lookup_singleton_eq. }
  eexists. split.
  - apply script_finishes.
    + right. split; [apply lookup_empty | reflexivity].
    + rewrite Hsrc. intros [|[|i]] img Hi; [| |done]; injection Hi as <-;
        vm_compute; discriminate.
    + rewrite Hsrc. simpl. lia.
  - rewrite Hsrc, imwrites_finished. split; [done|]. split; [reflexivity|].
    apply (pass_files_refused (Demo.env_first_refused Posix) [10; 20]%nat 0 _
             0%nat 10%nat);
      [done | vm_compute; reflexivity | apply lookup_empty].
Qed.

(** C4, amended.  In every run that ends, normally or not, the
    [i]-th image write is the write of the frame decoded [i]-th, to the
    path that joins the output folder with ["frame_"], [i] padded with
    zeros to four digits, and [".png"]; the index read back from that file
    name is [i].  In a run that ends normally every decoded frame is
    passed to a write so.  A write that succeeds leaves its frame on disk
    under that path until the end of the run. *)
Theorem order_preservation {Img : Type} (e : env (Img:=Img)) (d : gset string)
    (f : gmap string Img) (v : gmap string (list read_result)) (fuel : nat)
    (r : completion world) :
  script fuel e (boot d f v) = Some r ->
  (forall (i : nat) (p : string) (img : Img),
     imwrites (calls (world_of r)) !! i = Some (p, img) ->
     source_frames v !! i = Some img
     /\ p = os_path_join (platform e) output_folder
              ("frame_" +:+ format_04d (N.of_nat i) +:+ ".png")
     /\ name_index ("frame_" +:+ format_04d (N.of_nat i) +:+ ".png")
        = Some (N.of_nat i))
  /\ (forall w', r = Normal w' ->
      forall (i : nat) (img : Img), source_frames v !! i = Some img ->
        imwrites (calls w') !! i
        = Some (os_path_join (platform e) output_folder
                  ("frame_" +:+ format_04d (N.of_nat i) +:+ ".png"), img))
  /\ (forall (i : nat) (p : string) (img : Img),
        imwrites (calls (world_of r)) !! i = Some (p, img) ->
        imwrite_outcome e p img = Written ->
        files (world_of r) !! p = Some img).
Proof.
  intros Hrun. split; [|split].
  3:{ intros i p img Hi Hout.
      destruct (run_imwrites_lookup _ _ _ _ _ _ _ _ _ Hrun Hi) as [Hsrc ->].
      pose proof (lookup_lt_Some _ _ _ Hi) as Hlen.
      rewrite <- (N.add_0_l (N.of_nat i)) in Hout |- *.
      destruct (script_result _ _ _ _ _ _ Hrun)
        as [[_ ->] | [(_ & _ & ->) | (_ & k & frame & Hk & _ & Hthrow & ->)]];
        cbn [world_of] in *.
      - done.
      - cbn. by apply pass_files_written.
      - assert (length (take k (source_frames v)) = k) as Hk'.
        { apply length_take_le. apply lookup_lt_Some in Hk. lia. }
        rewrite imwrites_aborted, length_app, imwrites_pass_calls_length, Hk' in Hlen.
        cbn in Hlen.
        destruct (decide (i = k)) as [->|Hne].
        + rewrite Hk in Hsrc. injection Hsrc as ->.
          rewrite N.add_0_l in Hout. congruence.
        + cbn. apply pass_files_written; [|done].
          rewrite lookup_take_lt by lia. done. }
  - intros i p img Hi.
    destruct (run_imwrites_lookup _ _ _ _ _ _ _ _ _ Hrun Hi) as [Hsrc ->].
    split; [done|]. split; [done|]. apply name_index_frame_name.
  - intros w' -> i img Hi.
    destruct (script_result _ _ _ _ _ _ Hrun)
      as [[_ Hr] | [(_ & _ & Hr) | (_ & k & frame & _ & _ & _ & Hr)]];
      [done| |done].
    injection Hr as ->.
    rewrite imwrites_finished, imwrites_pass_calls_lookup, Hi. cbn.
    by rewrite N.add_0_l.
Qed.

Lemma order_preservation_witness :
  exists r,
    script 3 (Demo.env_ok Posix)
      (boot Demo.no_dirs Demo.no_files (Demo.video [7; 8]%nat)) = Some r
    /\ imwrites (calls (world_of r)) !! 1%nat
       = Some ("H:\H_downloads\allpng/frame_0001.png", 8%nat)
    /\ name_index "frame_0001.png" = Some 1
    /\ files (world_of r) !! "H:\H_downloads\allpng/frame_0001.png" = Some 8%nat.
Proof.
  assert (source_frames (Demo.video [7; 8]%nat) = [7; 8]%nat) as Hsrc.
  { unfold source_frames, Demo.video. by rewrite lookup_singleton_eq. }
  assert (script 3 (Demo.env_ok Posix)
            (boot Demo.no_dirs Demo.no_files (Demo.video [7; 8]%nat))
          = Some (Normal (finished (Demo.env_ok Posix) Demo.no_dirs Demo.no_files
                            (Demo.video [7; 8]%nat)
                            (source_frames (Demo.video [7; 8]%nat))))) as Hrun.
  { apply script_finishes.
    - right. split; [apply lookup_empty | reflexivity].
    - intros i img _. discriminate.
    - rewrite Hsrc. simpl. lia. }
  destruct (order_preservation _ _ _ _ _ _ Hrun) as (Hall & Hnormal & Hdisk).
  eexists. split; [exact Hrun|].
  assert (source_frames (Demo.video [7; 8]%nat) !! 1%nat = Some 8%nat) as H1
    by (by rewrite Hsrc).
  pose proof (Hnormal _ eq_refl 1%nat 8%nat H1) as Hwrite.
  destruct (Hall 1%nat _ 8%nat Hwrite) as (_ & _ & Hidx).
  split; [exact Hwrite|]. split; [exact Hidx|].
  exact (Hdisk 1%nat _ 8%nat Hwrite eq_refl).
Defined.

(** C5 (naming injectivity).  Two different indices below [n] never give
    the same file name, nor the same output path, on either platform. *)
Theorem naming_injective (os : os_name) (n i j : N) :
  i < n -> j < n -> i <> j ->
  frame_name i <> frame_name j
  /\ os_path_join os output_folder (frame_name i)
     <> os_path_join os output_folder (frame_name j).
Proof.
  intros _ _ Hne. split.
  - intros Heq. by apply frame_name_inj in Heq.
  - intros Heq. by apply (output_path_of_inj os) in Heq.
Qed.

Lemma naming_injective_witness :
  "frame_0000.png" <> "frame_0002.png"
  /\ "H:\H_downloads\allpng\frame_0000.png" <> "H:\H_downloads\allpng\frame_0002.png".
Proof. apply (naming_injective Nt 3 0 2); lia. Defined.

(** C9 (padding never truncates).  The formatted index has at least four
    characters, exactly four below 10000, and is the plain decimal
    representation from 10000 on; it always denotes the index itself.  So
    file names and output paths are injective over all indices. *)
Theorem padding_never_truncates (os : os_name) (n : N) :
  (4 <= String.length (format_04d n))%nat
  /\ decimal_value (format_04d n) = n
  /\ (n < 10000 -> String.length (format_04d n) = 4%nat)
  /\ (10000 <= n -> format_04d n = py_str n)
  /\ (forall m : N, frame_name n = frame_name m -> n = m)
  /\ (forall m : N, output_path_of os n = output_path_of os m -> n = m).
Proof.
  split; [rewrite format_04d_length; lia|].
  split; [apply decimal_value_format_04d|].
  split.
  { intros Hn. rewrite format_04d_length.
    pose proof (py_str_length_le n 4 Hn ltac:(lia)). lia. }
  split.
  { intros Hn. unfold format_04d.
    pose proof (py_str_length n 4 Hn) as Hlen.
    by replace (4 - String.length (py_str n))%nat with 0%nat by lia. }
  split.
  - intros m. apply frame_name_inj.
  - intros m. apply output_path_of_inj.
Qed.

Lemma padding_never_truncates_witness :
  format_04d 12345 = "12345"
  /\ String.length (format_04d 7) = 4%nat
  /\ frame_name 10000 = "frame_10000.png".
Proof.
  destruct (padding_never_truncates Nt 12345) as (_ & _ & _ & Hbig & _).
  destruct (padding_never_truncates Nt 7) as (_ & _ & Hsmall & _).
  split; [rewrite Hbig by lia; vm_compute; reflexivity|].
  split; [apply Hsmall; lia|]. vm_compute. reflexivity.
Defined.

(** C6 (zero-frame case).  When the video opens but its first read finds
    no frame, and the folder can be ensured, the run ends normally: the
    folder exists, no image is written, the files on disk are untouched,
    and the line printed reports zero frames. *)
Theorem zero_frame_run {Img : Type} (e : env (Img:=Img)) (d : gset string)
    (f : gmap string Img) (v : gmap string (list read_result))
    (rs : list read_result) (fuel : nat) :
  v !! video_path = Some rs ->
  decodable rs = [] ->
  folder_ok e d f ->
  (0 < fuel)%nat ->
  exists w',
    script fuel e (boot d f v) = Some (Normal w')
    /\ output_folder ∈ dirs w'
    /\ imwrites (calls w') = []
    /\ files w' = f
    /\ stdout w' = ["Done! Extracted 0 frames."].
Proof.
  intros Hv Hrs Hdir Hfuel.
  assert (source_frames v = []) as Hsrc
    by (unfold source_frames; by rewrite Hv).
  exists (finished e d f v (source_frames v)). split.
  - apply script_finishes; [done| |rewrite Hsrc; simpl; lia].
    intros i img Hi. by rewrite Hsrc in Hi.
  - rewrite Hsrc. split; [|done]. apply ensured_has.
Qed.

Lemma zero_frame_run_witness :
  exists w',
    script 1 (Demo.env_ok Nt) (boot Demo.no_dirs Demo.no_files (Demo.video []))
    = Some (Normal w')
    /\ output_folder ∈ dirs w'
    /\ imwrites (calls w') = []
    /\ files w' = Demo.no_files
    /\ stdout w' = ["Done! Extracted 0 frames."].
Proof.
  apply (zero_frame_run (Demo.env_ok Nt) Demo.no_dirs Demo.no_files
           (Demo.video []) [] 1).
  - apply lookup_singleton_eq.
  - reflexivity.
  - right. split; [apply lookup_empty | reflexivity].
  - lia.
Defined.

(** C7 (idempotent directory creation).  When the output folder is a
    directory already, ensuring it succeeds and changes nothing on disk,
    whatever the operating system would say to creating it; so a run
    against an existing folder does not end with [OSError], and neither
    does a second run started on what the first one left. *)
Theorem directory_creation_idempotent {Img : Type} (e e2 : env (Img:=Img))
    (d : gset string) (f : gmap string Img)
    (v v2 : gmap string (list read_result)) (fuel fuel2 : nat) :
  output_folder ∈ d ->
  (forall w : world, dirs w = d ->
     os_makedirs_exist_ok e output_folder w = Normal (log (CMakedirs output_folder) w))
  /\ (forall r : completion world,
      script fuel e (boot d f v) = Some r ->
      (forall w', r <> Abrupt OSError w')
      /\ output_folder ∈ dirs (world_of r)
      /\ (forall w2,
            script fuel2 e2 (boot (dirs (world_of r)) (files (world_of r)) v2)
            <> Some (Abrupt OSError w2))).
Proof.
  intros Hd.
  assert (forall (e' : env (Img:=Img)) d' f' v' fuel' r',
            output_folder ∈ d' ->
            script fuel' e' (boot d' f' v') = Some r' ->
            (forall w', r' <> Abrupt OSError w') /\ output_folder ∈ dirs (world_of r'))
    as Hrun.
  { intros e' d' f' v' fuel' r' Hd' Hr'.
    destruct (script_result _ _ _ _ _ _ Hr')
      as [[Hno _] | [(_ & _ & ->) | (_ & k & frame & _ & _ & _ & ->)]].
    - destruct Hno. by left.
    - split; [done|]. apply ensured_has.
    - split; [done|]. apply ensured_has. }
  split.
  - intros w <-. unfold os_makedirs_exist_ok.
    by rewrite decide_True by done.
  - intros r Hr. destruct (Hrun _ _ _ _ _ _ Hd Hr) as [Hne Hin].
    split; [done|]. split; [done|].
    intros w2 Hr2. destruct (Hrun _ _ _ _ _ _ Hin Hr2) as [Hne2 _].
    by apply (Hne2 w2).
Qed.

(** The folder exists and the operating system would refuse to create it:
    a run still gets past it, and so does a second run on what it left. *)
Lemma directory_creation_idempotent_witness :
  exists r,
    script 2 (Demo.env_locked Nt)
      (boot {[output_folder]} Demo.no_files (Demo.video [5%nat])) = Some r
    /\ output_folder ∈ dirs (world_of r)
    /\ (forall w2,
          script 2 (Demo.env_locked Nt)
            (boot (dirs (world_of r)) (files (world_of r)) (Demo.video [5%nat]))
          <> Some (Abrupt OSError w2)).
Proof.
  assert (output_folder ∈ ({[output_folder]} : gset string)) as Hin
    by (by apply elem_of_singleton).
  assert (source_frames (Demo.video [5%nat]) = [5%nat]) as Hsrc.
  { unfold source_frames, Demo.video. by rewrite lookup_singleton_eq. }
  assert (script 2 (Demo.env_locked Nt)
            (boot {[output_folder]} Demo.no_files (Demo.video [5%nat]))
          = Some (Normal (finished (Demo.env_locked Nt) {[output_folder]}
                            Demo.no_files (Demo.video [5%nat])
                            (source_frames (Demo.video [5%nat]))))) as Hrun.
  { apply script_finishes.
    - by left.
    - intros i img _. discriminate.
    - rewrite Hsrc. simpl. lia. }
  eexists. split; [exact Hrun|].
  destruct (directory_creation_idempotent (Demo.env_locked Nt) (Demo.env_locked Nt)
              {[output_folder]} Demo.no_files (Demo.video [5%nat])
              (Demo.video [5%nat]) 2 2 Hin) as [_ Hruns].
  destruct (Hruns _ Hrun) as (_ & Hdir & Hsecond).
  split; [exact Hdir | exact Hsecond].
Defined.

(** C10 (determinism).  Two runs on the same platform over the same decode
    results agree on every image write both of them make, whatever else
    differs between their worlds; if both end normally they make the same
    writes, to the same paths in the same order, and print the same
    report.  A run's result does not depend on the fuel it is given. *)
Theorem deterministic_output {Img : Type} (e1 e2 : env (Img:=Img))
    (d1 d2 : gset string) (f1 f2 : gmap string Img)
    (v1 v2 : gmap string (list read_result)) (fuel1 fuel2 : nat)
    (r1 r2 : completion world) :
  platform e1 = platform e2 ->
  v1 !! video_path = v2 !! video_path ->
  script fuel1 e1 (boot d1 f1 v1) = Some r1 ->
  script fuel2 e2 (boot d2 f2 v2) = Some r2 ->
  (forall (i : nat) (p1 p2 : string) (img1 img2 : Img),
     imwrites (calls (world_of r1)) !! i = Some (p1, img1) ->
     imwrites (calls (world_of r2)) !! i = Some (p2, img2) ->
     p1 = p2 /\ img1 = img2)
  /\ (forall w1 w2, r1 = Normal w1 -> r2 = Normal w2 ->
        imwrites (calls w1) = imwrites (calls w2)
        /\ (fst <$> imwrites (calls w1)) = (fst <$> imwrites (calls w2))
        /\ stdout w1 = stdout w2)
  /\ (forall r1', script fuel2 e1 (boot d1 f1 v1) = Some r1' -> r1' = r1).
Proof.
  intros Hos Hv Hr1 Hr2.
  assert (source_frames v1 = source_frames v2) as Hsrc
    by (unfold source_frames; by rewrite Hv).
  split; [|split].
  - intros i p1 p2 img1 img2 H1 H2.
    destruct (run_imwrites_lookup _ _ _ _ _ _ _ _ _ Hr1 H1) as [Hs1 ->].
    destruct (run_imwrites_lookup _ _ _ _ _ _ _ _ _ Hr2 H2) as [Hs2 ->].
    rewrite Hsrc, Hs2 in Hs1. injection Hs1 as ->. by rewrite Hos.
  - intros w1 w2 -> ->.
    destruct (script_result _ _ _ _ _ _ Hr1)
      as [[_ H1] | [(_ & _ & H1) | (_ & k & frame & _ & _ & _ & H1)]];
      [done| |done].
    destruct (script_result _ _ _ _ _ _ Hr2)
      as [[_ H2] | [(_ & _ & H2) | (_ & k & frame & _ & _ & _ & H2)]];
      [done| |done].
    injection H1 as ->. injection H2 as ->.
    rewrite !imwrites_finished, Hsrc, Hos. done.
  - intros r1' Hr1'.
    pose proof (script_fuel_mono _ _ (fuel1 `max` fuel2) _ _ Hr1 ltac:(lia)) as Ha.
    pose proof (script_fuel_mono _ _ (fuel1 `max` fuel2) _ _ Hr1' ltac:(lia)) as Hb.
    rewrite Ha in Hb. by injection Hb.
Qed.

Lemma deterministic_output_witness :
  exists w1 w2,
    script 3 (Demo.env_ok Nt) (boot Demo.no_dirs Demo.no_files (Demo.video [10; 20]%nat))
    = Some (Normal w1)
    /\ script 5 (Demo.env_first_refused Nt)
         (boot {[output_folder]} Demo.no_files (Demo.video [10; 20]%nat))
       = Some (Normal w2)
    /\ (fst <$> imwrites (calls w1)) = (fst <$> imwrites (calls w2))
    /\ stdout w1 = stdout w2.
Proof.
  assert (source_frames (Demo.video [10; 20]%nat) = [10; 20]%nat) as Hsrc.
  { unfold source_frames, Demo.video. by rewrite lookup_singleton_eq. }
  eexists _, _.
  assert (script 3 (Demo.env_ok Nt)
            (boot Demo.no_dirs Demo.no_files (Demo.video [10; 20]%nat))
          = Some (Normal (finished (Demo.env_ok Nt) Demo.no_dirs Demo.no_files
                            (Demo.video [10; 20]%nat)
                            (source_frames (Demo.video [10; 20]%nat))))) as Hr1.
  { apply script_finishes.
    - right. split; [apply lookup_empty | reflexivity].
    - intros i img _. discriminate.
    - rewrite Hsrc. simpl. lia. }
  assert (script 5 (Demo.env_first_refused Nt)
            (boot {[output_folder]} Demo.no_files (Demo.video [10; 20]%nat))
          = Some (Normal (finished (Demo.env_first_refused Nt) {[output_folder]}
                            Demo.no_files (Demo.video [10; 20]%nat)
                            (source_frames (Demo.video [10; 20]%nat))))) as Hr2.
  { apply script_finishes.
    - left. by apply elem_of_singleton.
    - rewrite Hsrc. intros [|[|i]] img Hi; [| |done]; injection Hi as <-;
        vm_compute; discriminate.
    - rewrite Hsrc. simpl. lia. }
  split; [exact Hr1|]. split; [exact Hr2|].
  destruct (deterministic_output (Demo.env_ok Nt) (Demo.env_first_refused Nt)
              _ _ _ _ _ _ _ _ _ _ eq_refl eq_refl Hr1 Hr2)
    as (_ & Hsame & _).
  destruct (Hsame _ _ eq_refl eq_refl) as (_ & Hpaths & Hout).
  split; [exact Hpaths | exact Hout].
Defined.

(** C8 (the frame index).  The counter is 0 when the loop is entered.  A
    pass that continues has decoded a frame and leaves the counter one
    higher; a pass that leaves the loop, or raises, leaves it as it was;
    and a pass that decodes a frame whose write does not raise does
    continue.  So the counter never decreases, and at the start of every
    pass it is the number of frames read, and written, so far.  It reaches
    the world only through the file name passed to the write and through
    the final report: passes from states that differ in the counter end
    alike up to file names, and the line printed at the end is the report
    of the counter at the loop's exit.  All this is so of the run itself:
    what [while True] returns is what its last pass returned, the state of
    that pass is reached from the loop's entry through passes that
    continued, every state so reached lies on the way to it with a counter
    between the entry's and its own, and the counter is unchanged by the
    last pass.  Hence a run that ends normally reports the number of image
    writes it made, one less than its reads, and its [i]-th write went to
    the file name formed from the value [i] of the counter. *)
Theorem frame_index_invariant {Img : Type} (e : env (Img:=Img)) (w : world) :
  frame_count (loop_entry w) = 0
  /\ (forall s : state,
        match loop_body e s with
        | Continue s' =>
            frame_count s' = frame_count s + 1
            /\ exists (frame : Img) rest,
                 opened (cap s) = true /\ pending (cap s) = Grab frame :: rest
        | Break s' | Raise _ s' => frame_count s' = frame_count s
        end)
  /\ (forall (s : state) (frame : Img) rest,
        opened (cap s) = true ->
        pending (cap s) = Grab frame :: rest ->
        imwrite_outcome e (output_path_of (platform e) (frame_count s)) frame <> Throws ->
        exists s', loop_body e s = Continue s'
                   /\ frame_count s' = frame_count s + 1)
  /\ (forall s s' : state,
        loop_reach e (loop_entry w) s -> loop_reach e s s' ->
        frame_count s <= frame_count s')
  /\ (forall s : state,
        loop_reach e (loop_entry w) s ->
        N.of_nat (reads (calls (st_world s)))
        = N.of_nat (reads (calls w)) + frame_count s
        /\ N.of_nat (length (imwrites (calls (st_world s))))
           = N.of_nat (length (imwrites (calls w))) + frame_count s)
  /\ (forall s1 s2 : state,
        cap s1 = cap s2 ->
        alike (st_world s1) (st_world s2) ->
        (forall (frame : Img) rest,
           pending (cap s1) = Grab frame :: rest ->
           imwrite_outcome e (output_path_of (platform e) (frame_count s1)) frame
           = Throws
           <-> imwrite_outcome e (output_path_of (platform e) (frame_count s2)) frame
               = Throws) ->
        flow_alike (loop_body e s1) (loop_body e s2))
  /\ (forall (w0 : world) (fuel : nat) (s' : state),
        os_makedirs_exist_ok e output_folder w0 = Normal w ->
        while_true fuel e (loop_entry w) = Some (Normal s') ->
        exists w',
          script fuel e w0 = Some (Normal w')
          /\ stdout w'
             = stdout (st_world s')
               ++ ["Done! Extracted " +:+ py_str (frame_count s') +:+ " frames."])
  /\ (forall (fuel : nat) (s : state) (c : completion state),
        while_true fuel e s = Some c ->
        exists s_last : state,
          loop_reach e s s_last
          /\ match c with
             | Normal s' => loop_body e s_last = Break s'
             | Abrupt x s' => loop_body e s_last = Raise x s'
             end
          /\ frame_count (state_of c) = frame_count s_last
          /\ (forall s_mid : state,
                loop_reach e s s_mid ->
                loop_reach e s_mid s_last
                /\ frame_count s <= frame_count s_mid
                /\ frame_count s_mid <= frame_count s_last))
  /\ (forall (d : gset string) (f : gmap string Img)
             (v : gmap string (list read_result)) (fuel : nat) (w' : world),
        script fuel e (boot d f v) = Some (Normal w') ->
        stdout w'
        = ["Done! Extracted "
           +:+ py_str (N.of_nat (length (imwrites (calls w')))) +:+ " frames."]
        /\ reads (calls w') = S (length (imwrites (calls w')))
        /\ (forall (i : nat) (p : string) (img : Img),
              imwrites (calls w') !! i = Some (p, img) ->
              p = os_path_join (platform e) output_folder
                    (frame_name (N.of_nat i)))).
Proof.
  assert (loop_entry w
          = State (st_world (loop_entry w)) (cap (loop_entry w)) 0) as Hentry.
  { unfold loop_entry, cv2_VideoCapture. by destruct (videos _ !! _). }
  assert (calls (st_world (loop_entry w)) = calls w ++ [CVideoCapture video_path])
    as Hcalls.
  { unfold loop_entry, cv2_VideoCapture. by destruct (videos _ !! _). }
  split; [by rewrite Hentry|].
  split.
  { intros s. pose proof (loop_body_stop e s) as Hstop.
    destruct (loop_body e s) as [s'|s'|x s'] eqn:Hbody; [|done..].
    destruct (loop_body_continue _ _ _ Hbody)
      as (frame & rest & Hop & Hpend & _ & Hcount & _). eauto 6. }
  split.
  { intros [w1 [op rs] c] frame rest Hop Hpend Hout. cbn in *. subst op rs.
    unfold loop_body, cap_read, cv2_imwrite.
    cbn [cap st_world opened pending frame_count].
    fold (output_path_of (platform e) c).
    destruct (imwrite_outcome e (output_path_of (platform e) c) frame);
      [| |done]; eauto. }
  split.
  { intros s s' _ Hreach. by destruct (loop_reach_count _ _ _ Hreach) as [Hle _]. }
  split.
  { intros s Hreach.
    destruct (loop_reach_count _ _ _ Hreach) as (_ & Hreads & Hwrites).
    rewrite Hcalls, reads_app in Hreads. rewrite Hcalls, imwrites_app in Hwrites.
    rewrite Hentry in Hreads, Hwrites. cbn in Hreads, Hwrites.
    rewrite Nat.add_0_r in Hreads. rewrite app_nil_r in Hwrites.
    rewrite N.sub_0_r in Hreads, Hwrites. done. }
  split; [apply loop_body_alike|].
  split.
  { intros w0 fuel s' Hmk Hloop. unfold script. rewrite Hmk, Hloop.
    eexists. split; [reflexivity|]. reflexivity. }
  split.
  { intros fuel s c Hrun.
    destruct (while_true_reach _ _ _ _ Hrun) as (s_last & Hreach & Hlast).
    exists s_last. split; [done|]. split; [done|].
    pose proof (loop_body_stop e s_last) as Hstop.
    split.
    - destruct c as [s'|x s']; rewrite Hlast in Hstop; exact Hstop.
    - intros s_mid Hmid.
      assert (loop_reach e s_mid s_last) as Hrest.
      { apply (loop_reach_before_last e s); [done..|].
        intros s' Hcont. destruct c; congruence. }
      split; [done|].
      destruct (loop_reach_count _ _ _ Hmid) as [Hle1 _].
      destruct (loop_reach_count _ _ _ Hrest) as [Hle2 _]. done. }
  intros d f v fuel w' Hrun.
  destruct (script_result _ _ _ _ _ _ Hrun)
    as [[_ Hr] | [(_ & _ & Hr) | (_ & k & frame & _ & _ & _ & Hr)]];
    [done| |done].
  injection Hr as ->.
  rewrite imwrites_finished, imwrites_pass_calls_length.
  split; [done|]. split.
  - rewrite calls_finished. cbn [app reads].
    rewrite reads_app, reads_pass_calls. simpl. lia.
  - intros i p img Hi.
    rewrite imwrites_pass_calls_lookup in Hi.
    destruct (source_frames v !! i); [|done].
    cbn in Hi. rewrite N.add_0_l in Hi. by injection Hi as <- _.
Qed.

Lemma frame_index_invariant_witness :
  exists s',
    loop_body (Demo.env_ok Nt)
      (State (boot Demo.no_dirs Demo.no_files Demo.no_video)
             (Capture true [Grab 5%nat]) 41)
    = Continue s'
    /\ frame_count s' = 42.
Proof.
  destruct (frame_index_invariant (Demo.env_ok Nt)
              (boot Demo.no_dirs Demo.no_files Demo.no_video))
    as (_ & _ & Hpass & _).
  apply (Hpass (State (boot Demo.no_dirs Demo.no_files Demo.no_video)
                  (Capture true [Grab 5%nat]) 41) 5%nat []);
    [reflexivity | reflexivity | discriminate].
Defined.

(** * Further properties of the script, X1 onwards *)

(** ** More on the call log and the disk *)

Section Disk.

Context {Img : Type}.
Implicit Types (e : env (Img:=Img)) (frames : list Img) (d : gset string)
  (f m : gmap string Img) (v : gmap string (list (read_result (Img:=Img))))
  (cs : list (call (Img:=Img))).

Lemma releases_app cs1 cs2 :
  releases (cs1 ++ cs2) = (releases cs1 + releases cs2)%nat.
Proof.
  induction cs1 as [|c cs1 IH]; [done|].
  destruct c; cbn [app releases]; by rewrite IH.
Qed.

Lemma releases_pass_calls os frames : forall c,
  releases (pass_calls os c frames) = O.
Proof. induction frames as [|fr frames IH]; intros c; cbn; [done|]. by rewrite IH. Qed.

Lemma decodable_prefix frames (later : list (read_result (Img:=Img))) :
  decodable ((Grab <$> frames) ++ NoGrab :: later) = frames.
Proof. induction frames as [|fr frames IH]; cbn; [done|]. by f_equal. Qed.

Lemma imwrites_pass_calls_imap os frames :
  imwrites (pass_calls os 0 frames)
  = imap (fun (i : nat) (img : Img) => (output_path_of os (N.of_nat i), img)) frames.
Proof.
  apply list_eq. intros i.
  rewrite imwrites_pass_calls_lookup, list_lookup_imap.
  by rewrite N.add_0_l.
Qed.

(** What the passes leave under a path: the frame of the one pass that
    wrote there with success, or else what was there before. *)
Lemma pass_files_lookup e frames : forall c m (p : string),
  (exists (i : nat) (img : Img),
     frames !! i = Some img
     /\ p = output_path_of (platform e) (c + N.of_nat i)
     /\ imwrite_outcome e p img = Written
     /\ pass_files e c frames m !! p = Some img)
  \/ ((forall (i : nat) (img : Img),
         frames !! i = Some img ->
         p = output_path_of (platform e) (c + N.of_nat i) ->
         imwrite_outcome e p img <> Written)
      /\ pass_files e c frames m !! p = m !! p).
Proof.
  induction frames as [|fr frames IH]; intros c m p.
  - right. split; [|done]. intros i img Hi. done.
  - cbn [pass_files].
    set (m' := match imwrite_outcome e (output_path_of (platform e) c) fr with
               | Written => <[output_path_of (platform e) c := fr]> m
               | _ => m
               end).
    destruct (IH (c + 1) m' p) as [(i & img & Hi & Hp & Hout & Hres) | [Hno Hres]].
    + left. exists (S i), img. split; [done|]. split; [|done].
      by replace (c + N.of_nat (S i)) with (c + 1 + N.of_nat i) by lia.
    + destruct (decide (p = output_path_of (platform e) c)) as [->|Hne].
      * destruct (imwrite_outcome e (output_path_of (platform e) c) fr) eqn:Hout.
        { left. exists O, fr. split; [done|].
          rewrite N.add_0_r. split; [done|]. split; [done|].
          rewrite Hres. subst m'. apply lookup_insert_eq. }
        all: right; split; [|by rewrite Hres].
        all: intros [|i] img Hi Hp;
          [ injection Hi as <-; by rewrite Hout
          | apply (Hno i img Hi);
            by replace (c + 1 + N.of_nat i) with (c + N.of_nat (S i)) by lia ].
      * right. split.
        { intros [|i] img Hi Hp.
          - rewrite N.add_0_r in Hp. done.
          - apply (Hno i img Hi).
            by replace (c + 1 + N.of_nat i) with (c + N.of_nat (S i)) by lia. }
        rewrite Hres. subst m'.
        destruct (imwrite_outcome e (output_path_of (platform e) c) fr); [|done..].
        by rewrite lookup_insert_ne.
Qed.

(** Each pass adds at most one file. *)
Lemma pass_files_size_le e frames : forall c m,
  (size (pass_files e c frames m) <= size m + length frames)%nat.
Proof.
  induction frames as [|fr frames IH]; intros c m; cbn [pass_files length]; [lia|].
  etrans; [apply IH|].
  destruct (imwrite_outcome e (output_path_of (platform e) c) fr); [|lia..].
  rewrite map_size_insert. destruct (m !! _); cbn; unfold id; lia.
Qed.

(** Passes whose writes all succeed, to paths that are all free, add one
    file each. *)
Lemma pass_files_size_eq e frames : forall c m,
  (forall (i : nat) (img : Img), frames !! i = Some img ->
     imwrite_outcome e (output_path_of (platform e) (c + N.of_nat i)) img = Written
     /\ m !! output_path_of (platform e) (c + N.of_nat i) = None) ->
  size (pass_files e c frames m) = (size m + length frames)%nat.
Proof.
  induction frames as [|fr frames IH]; intros c m Hall; cbn [pass_files length]; [lia|].
  destruct (Hall O fr eq_refl) as [Hout Hfree]. rewrite N.add_0_r in Hout, Hfree.
  rewrite Hout, IH.
  - rewrite map_size_insert_None by done. lia.
  - intros i img Hi. destruct (Hall (S i) img Hi) as [Hout' Hfree'].
    replace (c + N.of_nat (S i)) with (c + 1 + N.of_nat i) in * by lia.
    split; [done|]. rewrite lookup_insert_ne; [done|].
    intros Heq. apply output_path_of_inj in Heq. lia.
Qed.

(** No frame is written over the video. *)
Lemma output_path_not_video (os : os_name) (n : N) : output_path_of os n <> video_path.
Proof.
  rewrite output_path_of_eq. generalize (frame_name n). intros name Heq.
  apply (f_equal (Str.take 16)) in Heq.
  destruct os; vm_compute in Heq; discriminate Heq.
Qed.

Lemma ensured_twice e d : ensured e (ensured e d) = ensured e d.
Proof.
  unfold ensured at 1. by rewrite decide_True by apply ensured_has.
Qed.

End Disk.

(** ** Sorting file names *)

Lemma string_compare_refl (s : string) : String.compare s s = Eq.
Proof.
  induction s as [|c s IH]; [done|]. cbn [String.compare].
  unfold Ascii.compare. by rewrite N.compare_refl.
Qed.

Lemma ascii_compare_digits (c1 c2 : ascii) :
  is_digit c1 = true -> is_digit c2 = true ->
  Ascii.compare c1 c2 = N.compare (digit_value c1) (digit_value c2).
Proof.
  unfold is_digit, Str.between, digit_value, Ascii.compare, nat_of_ascii.
  intros [H1 _]%andb_true_iff [H2 _]%andb_true_iff.
  apply Nat.leb_le in H1, H2. rewrite !N2Nat.id.
  destruct (N.compare_spec (N_of_ascii c1) (N_of_ascii c2)) as [Heq|Hlt|Hgt];
    symmetry.
  - rewrite Heq. apply N.compare_refl.
  - apply N.compare_lt_iff. lia.
  - apply N.compare_gt_iff. lia.
Qed.

(** Strings of digits of one length sort like the numbers they denote. *)
Lemma compare_digit_strings (s : string) : forall t : string,
  all_digits s = true -> all_digits t = true ->
  String.length s = String.length t ->
  String.compare s t = N.compare (decimal_value s) (decimal_value t).
Proof.
  induction s as [|c s IH]; intros [|c' t] Hs Ht Hlen; try done.
  cbn [all_digits] in Hs, Ht.
  apply andb_true_iff in Hs as [Hc Hs]. apply andb_true_iff in Ht as [Hc' Ht].
  cbn [String.length] in Hlen. injection Hlen as Hlen.
  cbn [String.compare decimal_value].
  rewrite ascii_compare_digits by done. rewrite <- Hlen.
  pose proof (decimal_value_bound s Hs) as Hbs.
  pose proof (decimal_value_bound t Ht) as Hbt. rewrite <- Hlen in Hbt.
  set (pw := 10 ^ N.of_nat (String.length s)) in *.
  destruct (N.compare_spec (digit_value c) (digit_value c')) as [Heq|Hlt|Hgt].
  - rewrite Heq, IH by done.
    destruct (N.compare_spec (decimal_value s) (decimal_value t)) as [->|?|?];
      symmetry.
    + apply N.compare_refl.
    + apply N.compare_lt_iff. lia.
    + apply N.compare_gt_iff. lia.
  - symmetry. apply N.compare_lt_iff. nia.
  - symmetry. apply N.compare_gt_iff. nia.
Qed.

Lemma compare_app_same (s : string) : forall t u : string,
  String.length s = String.length t ->
  String.compare (s +:+ u) (t +:+ u) = String.compare s t.
Proof.
  induction s as [|c s IH]; intros [|c' t] u Hlen; try done.
  - apply string_compare_refl.
  - cbn [String.length] in Hlen. injection Hlen as Hlen.
    change (String.compare (String c (s +:+ u)) (String c' (t +:+ u))
            = String.compare (String c s) (String c' t)).
    cbn [String.compare]. by rewrite IH.
Qed.

Lemma all_digits_format_04d (n : N) : all_digits (format_04d n) = true.
Proof. apply all_digits_zeros, all_digits_py_str. Qed.

(** File names whose indices are formatted to one width sort like the
    indices. *)
Lemma frame_name_compare (i j : N) :
  String.length (format_04d i) = String.length (format_04d j) ->
  String.compare (frame_name i) (frame_name j) = N.compare i j.
Proof.
  intros Hlen. unfold frame_name.
  change (String.compare (format_04d i +:+ ".png") (format_04d j +:+ ".png")
          = N.compare i j).
  rewrite compare_app_same by done.
  rewrite compare_digit_strings by (done || apply all_digits_format_04d).
  by rewrite !decimal_value_format_04d.
Qed.

(** ** The properties *)

(** X1 (the folder cannot be ensured).  When the output folder is not a
    directory and is either a file or may not be created, the run ends
    with [OSError] at its first statement, whatever the video: the only
    library call is the [os.makedirs], no capture is created, nothing is
    read, written or printed, and no file is touched.  No directory is
    lost; when the folder is a file the directories are as they were, and
    otherwise only directories above the folder, made before the failing
    [mkdir], are new.  Conversely a run that ends with [OSError] is such a
    run: the exception can only come from the first statement. *)
Theorem folder_failure_aborts_first {Img : Type} (e : env (Img:=Img))
    (d : gset string) (f : gmap string Img)
    (v : gmap string (list read_result)) (fuel : nat) :
  (output_folder ∉ d ->
   is_Some (f !! output_folder) \/ mkdir_allowed e output_folder = false ->
   exists w',
     script fuel e (boot d f v) = Some (Abrupt OSError w')
     /\ calls w' = [CMakedirs output_folder]
     /\ stdout w' = []
     /\ files w' = f
     /\ d ⊆ dirs w'
     /\ (is_Some (f !! output_folder) -> dirs w' = d)
     /\ (f !! output_folder = None ->
         dirs w' = (parents e output_folder ∩ made_before_failure e output_folder) ∪ d))
  /\ (forall w',
        script fuel e (boot d f v) = Some (Abrupt OSError w') ->
        (output_folder ∉ d)
        /\ (is_Some (f !! output_folder) \/ mkdir_allowed e output_folder = false)
        /\ calls w' = [CMakedirs output_folder]
        /\ stdout w' = []
        /\ files w' = f).
Proof.
  split.
  - intros Hnin Hwhy.
    assert (~ folder_ok e d f) as Hno.
    { intros [Hin | [Hnone Hallow]]; [done|].
      destruct Hwhy as [[x Hx] | Hfalse]; congruence. }
    exists (refused e d f v). split.
    { unfold script. by rewrite makedirs_fails. }
    do 3 (split; [done|]). unfold refused. cbn.
    split; [|split].
    + case_decide; [done|]. apply union_subseteq_r.
    + intros Hfile. by rewrite decide_True.
    + intros Hnone. rewrite decide_False; [done|].
      rewrite Hnone. by intros [x Hx].
  - intros w' Hrun.
    destruct (script_result _ _ _ _ _ _ Hrun)
      as [[Hno Hr] | [(_ & _ & Hr) | (_ & k & frame & _ & _ & _ & Hr)]];
      [|done..].
    injection Hr as ->.
    assert (output_folder ∉ d) as Hnin by (intros Hin; apply Hno; by left).
    split; [done|]. split; [|done].
    destruct (f !! output_folder) eqn:Hf; [left; by eexists|].
    right. destruct (mkdir_allowed e output_folder) eqn:Hallow; [|done].
    destruct Hno. right. split; [exact Hf | exact Hallow].
Qed.

(** The folder may not be created, the directory above it may: the run
    ends at once and leaves that directory behind. *)
Lemma folder_failure_aborts_first_witness :
  exists w',
    script 0 (Demo.env_leaf_locked Nt)
      (boot Demo.no_dirs Demo.no_files (Demo.video [1; 2]%nat))
    = Some (Abrupt OSError w')
    /\ calls w' = [CMakedirs output_folder]
    /\ stdout w' = []
    /\ "H:\H_downloads" ∈ dirs w'.
Proof.
  destruct (folder_failure_aborts_first (Demo.env_leaf_locked Nt) Demo.no_dirs
              Demo.no_files (Demo.video [1; 2]%nat) 0) as [Hfails _].
  destruct Hfails as (w' & Hrun & Hcalls & Hout & _ & _ & _ & Hdirs).
  - apply not_elem_of_empty.
  - right. reflexivity.
  - exists w'. do 3 (split; [assumption|]).
    rewrite Hdirs by apply lookup_empty.
    apply elem_of_union_l, elem_of_intersection.
    split; change ("H:\H_downloads" ∈ ({["H:\H_downloads"]} : gset string));
      by apply elem_of_singleton.
Defined.

(** X2 (release).  A run that ends normally has released the capture
    exactly once, as its last library call.  A run that ends with an
    exception has not released it at all: nothing stands between the
    failing statement and the end of the run. *)
Theorem release_discipline {Img : Type} (e : env (Img:=Img)) (d : gset string)
    (f : gmap string Img) (v : gmap string (list read_result)) (fuel : nat)
    (r : completion world) :
  script fuel e (boot d f v) = Some r ->
  match r with
  | Normal w' => releases (calls w') = 1%nat /\ last (calls w') = Some CRelease
  | Abrupt _ w' => releases (calls w') = 0%nat
  end.
Proof.
  intros Hrun.
  destruct (script_result _ _ _ _ _ _ Hrun)
    as [[_ ->] | [(_ & _ & ->) | (_ & k & frame & _ & _ & _ & ->)]].
  - done.
  - rewrite calls_finished. split.
    + cbn [app releases]. by rewrite releases_app, releases_pass_calls.
    + change [CRead; CRelease] with ([CRead (Img:=Img)] ++ [CRelease]).
      by rewrite !app_assoc, last_snoc.
  - rewrite calls_aborted. cbn [app releases].
    by rewrite releases_app, releases_pass_calls.
Qed.

Lemma release_discipline_witness :
  exists w',
    script 2 (Demo.env_second_throws Nt)
      (boot Demo.no_dirs Demo.no_files (Demo.video [10; 20; 30]%nat))
    = Some (Abrupt cv2_error w')
    /\ releases (calls w') = 0%nat.
Proof.
  assert (source_frames (Demo.video [10; 20; 30]%nat) = [10; 20; 30]%nat) as Hsrc.
  { unfold source_frames, Demo.video. by rewrite lookup_singleton_eq. }
  assert (script 2 (Demo.env_second_throws Nt)
            (boot Demo.no_dirs Demo.no_files (Demo.video [10; 20; 30]%nat))
          = Some (Abrupt cv2_error
                    (aborted (Demo.env_second_throws Nt) Demo.no_dirs Demo.no_files
                       (Demo.video [10; 20; 30]%nat)
                       (take 1 (source_frames (Demo.video [10; 20; 30]%nat)))
                       20%nat))) as Hrun.
  { apply script_aborts.
    - right. split; [apply lookup_empty | reflexivity].
    - by rewrite Hsrc.
    - rewrite Hsrc. intros [|i] img Hi; [|done]. injection Hi as <-.
      vm_compute. discriminate.
    - vm_compute. reflexivity.
    - lia. }
  eexists. split; [exact Hrun|].
  exact (release_discipline _ _ _ _ _ _ Hrun).
Defined.

(** X3 (a failed read ends the extraction).  When the reads give the
    frames [frames], then fail once, a run that ends normally has written
    exactly [frames], made one read more than there are frames, and
    reports their number, whatever the reads after the failed one would
    have given. *)
Theorem first_failed_read_ends {Img : Type} (e : env (Img:=Img)) (d : gset string)
    (f : gmap string Img) (v : gmap string (list read_result)) (fuel : nat)
    (frames : list Img) (later : list read_result) (w' : world) :
  v !! video_path = Some ((Grab <$> frames) ++ NoGrab :: later) ->
  script fuel e (boot d f v) = Some (Normal w') ->
  imwrites (calls w')
  = imap (fun (i : nat) (img : Img) =>
            (output_path_of (platform e) (N.of_nat i), img)) frames
  /\ reads (calls w') = S (length frames)
  /\ stdout w' = ["Done! Extracted " +:+ py_str (N.of_nat (length frames))
                  +:+ " frames."].
Proof.
  intros Hv Hrun.
  assert (source_frames v = frames) as Hsrc.
  { unfold source_frames. rewrite Hv. apply decodable_prefix. }
  destruct (script_result _ _ _ _ _ _ Hrun)
    as [[_ Hr] | [(_ & _ & Hr) | (_ & k & frame & _ & _ & _ & Hr)]];
    [done| |done].
  injection Hr as ->. rewrite Hsrc.
  split; [by rewrite imwrites_finished, imwrites_pass_calls_imap|].
  split; [|done].
  rewrite calls_finished. cbn [app reads].
  rewrite reads_app, reads_pass_calls. simpl. lia.
Qed.

Lemma first_failed_read_ends_witness :
  exists w',
    script 2 (Demo.env_ok Posix)
      (boot Demo.no_dirs Demo.no_files
         {[ video_path := [Grab 1%nat; NoGrab; Grab 2%nat; Grab 3%nat] ]})
    = Some (Normal w')
    /\ imwrites (calls w') = [("H:\H_downloads\allpng/frame_0000.png", 1%nat)]
    /\ reads (calls w') = 2%nat
    /\ stdout w' = ["Done! Extracted 1 frames."].
Proof.
  set (v := ({[ video_path := [Grab 1%nat; NoGrab; Grab 2%nat; Grab 3%nat] ]}
             : gmap string (list (read_result (Img:=nat))))).
  assert (v !! video_path = Some ((Grab <$> [1%nat]) ++ NoGrab :: [Grab 2%nat; Grab 3%nat]))
    as Hv by apply lookup_singleton_eq.
  assert (source_frames v = [1%nat]) as Hsrc.
  { unfold source_frames. by rewrite Hv. }
  assert (script 2 (Demo.env_ok Posix) (boot Demo.no_dirs Demo.no_files v)
          = Some (Normal (finished (Demo.env_ok Posix) Demo.no_dirs Demo.no_files v
                            (source_frames v)))) as Hrun.
  { apply script_finishes.
    - right. split; [apply lookup_empty | reflexivity].
    - intros i img _. discriminate.
    - rewrite Hsrc. simpl. lia. }
  eexists. split; [exact Hrun|].
  destruct (first_failed_read_ends _ _ _ _ _ _ _ _ Hv Hrun) as (Hw & Hr & Ho).
  split; [rewrite Hw; vm_compute; reflexivity|].
  split; [exact Hr|]. rewrite Ho. vm_compute. reflexivity.
Defined.

(** X4 (writes stay in the folder).  In every run that ends, each image
    write goes to the output folder followed by one separator and a file
    name of the form [frame_<digits>.png]: the path begins with the folder
    and the name holds no separator that could lead elsewhere. *)
Theorem writes_stay_in_folder {Img : Type} (e : env (Img:=Img)) (d : gset string)
    (f : gmap string Img) (v : gmap string (list read_result)) (fuel : nat)
    (r : completion world) (p : string) (img : Img) :
  script fuel e (boot d f v) = Some r ->
  (p, img) ∈ imwrites (calls (world_of r)) ->
  exists i : N,
    p = output_folder +:+ os_sep (platform e) +:+ "frame_" +:+ format_04d i +:+ ".png"
    /\ Str.take (String.length output_folder) p = output_folder
    /\ all_digits (format_04d i) = true
    /\ name_index (Str.drop (String.length output_folder + 1) p) = Some i.
Proof.
  intros Hrun [k Hk]%list_elem_of_lookup.
  destruct (run_imwrites_lookup _ _ _ _ _ _ _ _ _ Hrun Hk) as [_ ->].
  exists (N.of_nat k). rewrite output_path_of_eq.
  split; [done|]. split; [apply StrFacts.take_app|].
  split; [apply all_digits_format_04d|].
  replace (Str.drop (String.length output_folder + 1)
             (output_folder +:+ os_sep (platform e) +:+ frame_name (N.of_nat k)))
    with (frame_name (N.of_nat k)); [apply name_index_frame_name|].
  by destruct (platform e).
Qed.

Lemma writes_stay_in_folder_witness :
  exists i : N,
    output_path_of Nt 1
    = output_folder +:+ os_sep Nt +:+ "frame_" +:+ format_04d i +:+ ".png"
    /\ Str.take (String.length output_folder) (output_path_of Nt 1) = output_folder.
Proof.
  assert (source_frames (Demo.video [7; 8]%nat) = [7; 8]%nat) as Hsrc.
  { unfold source_frames, Demo.video. by rewrite lookup_singleton_eq. }
  assert (script 3 (Demo.env_ok Nt)
            (boot Demo.no_dirs Demo.no_files (Demo.video [7; 8]%nat))
          = Some (Normal (finished (Demo.env_ok Nt) Demo.no_dirs Demo.no_files
                            (Demo.video [7; 8]%nat)
                            (source_frames (Demo.video [7; 8]%nat))))) as Hrun.
  { apply script_finishes.
    - right. split; [apply lookup_empty | reflexivity].
    - intros i img _. discriminate.
    - rewrite Hsrc. simpl. lia. }
  destruct (writes_stay_in_folder _ _ _ _ _ _ (output_path_of Nt 1) 8%nat Hrun)
    as (i & Hp & Htake & _).
  - cbn [world_of]. rewrite imwrites_finished, Hsrc.
    apply list_elem_of_lookup. exists 1%nat. reflexivity.
  - exists i. split; [exact Hp | exact Htake].
Defined.

(** X5 (only the frame paths are touched).  In every run that ends, no
    directory is lost, every file at a path other than the paths of the
    decodable frames is exactly as it was, and no image write goes to the
    path of the video itself. *)
Theorem only_frame_paths_touched {Img : Type} (e : env (Img:=Img))
    (d : gset string) (f : gmap string Img)
    (v : gmap string (list read_result)) (fuel : nat) (r : completion world) :
  script fuel e (boot d f v) = Some r ->
  d ⊆ dirs (world_of r)
  /\ (forall p : string,
        (forall i : nat, (i < length (source_frames v))%nat ->
           p <> output_path_of (platform e) (N.of_nat i)) ->
        files (world_of r) !! p = f !! p)
  /\ (forall (p : string) (img : Img),
        (p, img) ∈ imwrites (calls (world_of r)) -> p <> video_path).
Proof.
  intros Hrun. split; [|split].
  - destruct (script_result _ _ _ _ _ _ Hrun)
      as [[_ ->] | [(_ & _ & ->) | (_ & k & frame & _ & _ & _ & ->)]];
      cbn [world_of]; [|apply ensured_keeps..].
    unfold refused. cbn. case_decide; [done|]. apply union_subseteq_r.
  - intros p Hp.
    destruct (script_result _ _ _ _ _ _ Hrun)
      as [[_ ->] | [(_ & _ & ->) | (_ & k & frame & _ & _ & _ & ->)]];
      cbn [world_of]; [done|..]; cbn; apply pass_files_other;
      intros i Hi; rewrite N.add_0_l; apply Hp.
    + done.
    + rewrite length_take in Hi. lia.
  - intros p img [k Hk]%list_elem_of_lookup.
    destruct (run_imwrites_lookup _ _ _ _ _ _ _ _ _ Hrun Hk) as [_ ->].
    apply output_path_not_video.
Qed.

Lemma only_frame_paths_touched_witness :
  exists r,
    script 3 (Demo.env_first_refused Nt)
      (boot {["D:\keep"]} {["D:\keep\old.png" := 99%nat]} (Demo.video [10; 20]%nat))
    = Some r
    /\ "D:\keep" ∈ dirs (world_of r)
    /\ files (world_of r) !! "D:\keep\old.png" = Some 99%nat.
Proof.
  assert (source_frames (Demo.video [10; 20]%nat) = [10; 20]%nat) as Hsrc.
  { unfold source_frames, Demo.video. by rewrite lookup_singleton_eq. }
  assert (script 3 (Demo.env_first_refused Nt)
            (boot {["D:\keep"]} {["D:\keep\old.png" := 99%nat]}
               (Demo.video [10; 20]%nat))
          = Some (Normal (finished (Demo.env_first_refused Nt) {["D:\keep"]}
                            {["D:\keep\old.png" := 99%nat]}
                            (Demo.video [10; 20]%nat)
                            (source_frames (Demo.video [10; 20]%nat))))) as Hrun.
  { apply script_finishes.
    - right. split; [by apply lookup_singleton_ne | reflexivity].
    - rewrite Hsrc. intros [|[|i]] img Hi; [| |done]; injection Hi as <-;
        vm_compute; discriminate.
    - rewrite Hsrc. simpl. lia. }
  eexists. split; [exact Hrun|].
  destruct (only_frame_paths_touched _ _ _ _ _ _ Hrun) as (Hdirs & Hfiles & _).
  split.
  - apply Hdirs. by apply elem_of_singleton.
  - rewrite Hfiles; [apply lookup_singleton_eq|].
    intros i _ Heq. apply (f_equal (Str.take 1)) in Heq.
    rewrite output_path_of_eq in Heq. discriminate Heq.
Defined.

(** X6 (a shorter video on top of a longer one).  When a run over one
    video is followed by a run over a video with fewer frames, the second
    run overwrites the files of the indices it covers and leaves the files
    of the higher indices as the first run wrote them: the folder then
    holds frames of both videos. *)
Theorem shorter_rerun_keeps_stale_frames {Img : Type} (e : env (Img:=Img))
    (d : gset string) (f : gmap string Img)
    (v1 v2 : gmap string (list read_result)) (fuel1 fuel2 : nat) (w1 w2 : world) :
  script fuel1 e (boot d f v1) = Some (Normal w1) ->
  script fuel2 e (boot (dirs w1) (files w1) v2) = Some (Normal w2) ->
  forall (i : nat) (img : Img),
    (source_frames v2 !! i = Some img ->
     imwrite_outcome e (output_path_of (platform e) (N.of_nat i)) img = Written ->
     files w2 !! output_path_of (platform e) (N.of_nat i) = Some img)
    /\ ((length (source_frames v2) <= i)%nat ->
        source_frames v1 !! i = Some img ->
        imwrite_outcome e (output_path_of (platform e) (N.of_nat i)) img = Written ->
        files w2 !! output_path_of (platform e) (N.of_nat i) = Some img).
Proof.
  intros Hr1 Hr2 i img.
  destruct (script_result _ _ _ _ _ _ Hr1)
    as [[_ H1] | [(_ & _ & H1) | (_ & k & frame & _ & _ & _ & H1)]];
    [done| |done].
  destruct (script_result _ _ _ _ _ _ Hr2)
    as [[_ H2] | [(_ & _ & H2) | (_ & k & frame & _ & _ & _ & H2)]];
    [done| |done].
  injection H2 as ->. split.
  - intros Hi Hout. cbn.
    rewrite <- (N.add_0_l (N.of_nat i)) in Hout |- *.
    by apply pass_files_written.
  - intros Hge Hi Hout. cbn. rewrite pass_files_other.
    + injection H1 as ->. cbn.
      rewrite <- (N.add_0_l (N.of_nat i)) in Hout |- *.
      by apply pass_files_written.
    + intros j Hj Heq. rewrite N.add_0_l in Heq.
      apply output_path_of_inj in Heq. lia.
Qed.

Lemma shorter_rerun_keeps_stale_frames_witness :
  exists w1 w2,
    script 4 (Demo.env_ok Nt)
      (boot Demo.no_dirs Demo.no_files (Demo.video [10; 20; 30]%nat))
    = Some (Normal w1)
    /\ script 2 (Demo.env_ok Nt)
         (boot (dirs w1) (files w1) (Demo.video [77%nat]))
       = Some (Normal w2)
    /\ files w2 !! "H:\H_downloads\allpng\frame_0000.png" = Some 77%nat
    /\ files w2 !! "H:\H_downloads\allpng\frame_0002.png" = Some 30%nat.
Proof.
  assert (source_frames (Demo.video [10; 20; 30]%nat) = [10; 20; 30]%nat) as Hs1.
  { unfold source_frames, Demo.video. by rewrite lookup_singleton_eq. }
  assert (source_frames (Demo.video [77%nat]) = [77%nat]) as Hs2.
  { unfold source_frames, Demo.video. by rewrite lookup_singleton_eq. }
  assert (script 4 (Demo.env_ok Nt)
            (boot Demo.no_dirs Demo.no_files (Demo.video [10; 20; 30]%nat))
          = Some (Normal (finished (Demo.env_ok Nt) Demo.no_dirs Demo.no_files
                            (Demo.video [10; 20; 30]%nat)
                            (source_frames (Demo.video [10; 20; 30]%nat))))) as Hr1.
  { apply script_finishes.
    - right. split; [apply lookup_empty | reflexivity].
    - intros i img _. discriminate.
    - rewrite Hs1. simpl. lia. }
  eexists _, _. split; [exact Hr1|].
  assert (forall d f,
            output_folder ∈ d ->
            script 2 (Demo.env_ok Nt) (boot d f (Demo.video [77%nat]))
            = Some (Normal (finished (Demo.env_ok Nt) d f (Demo.video [77%nat])
                              (source_frames (Demo.video [77%nat]))))) as Hr2.
  { intros d f Hd. apply script_finishes.
    - by left.
    - intros i img _. discriminate.
    - rewrite Hs2. simpl. lia. }
  split; [apply Hr2, ensured_has|].
  pose proof (shorter_rerun_keeps_stale_frames _ _ _ _ _ _ _ _ _ Hr1
                (Hr2 _ _ (ensured_has _ _))) as Hboth.
  destruct (Hboth 0%nat 77%nat) as [Hnew _].
  destruct (Hboth 2%nat 30%nat) as [_ Hold].
  split.
  - apply Hnew; [by rewrite Hs2 | reflexivity].
  - apply Hold; [rewrite Hs2; simpl; lia | by rewrite Hs1 | reflexivity].
Defined.

(** X7 (running again).  A second run over the same video, with writes
    ending as before, leaves the directories and the files exactly as the
    first run left them, makes the same image writes and prints the same
    report. *)
Theorem rerun_changes_nothing {Img : Type} (e : env (Img:=Img))
    (d : gset string) (f : gmap string Img)
    (v : gmap string (list read_result)) (fuel1 fuel2 : nat) (w1 w2 : world) :
  script fuel1 e (boot d f v) = Some (Normal w1) ->
  script fuel2 e (boot (dirs w1) (files w1) v) = Some (Normal w2) ->
  files w2 = files w1
  /\ dirs w2 = dirs w1
  /\ imwrites (calls w2) = imwrites (calls w1)
  /\ stdout w2 = stdout w1.
Proof.
  intros Hr1 Hr2.
  destruct (script_result _ _ _ _ _ _ Hr1)
    as [[_ H1] | [(_ & _ & H1) | (_ & k & frame & _ & _ & _ & H1)]];
    [done| |done].
  destruct (script_result _ _ _ _ _ _ Hr2)
    as [[_ H2] | [(_ & _ & H2) | (_ & k & frame & _ & _ & _ & H2)]];
    [done| |done].
  injection H2 as ->. injection H1 as ->.
  split; [|split; [|split]].
  - cbn. apply map_eq. intros p.
    destruct (pass_files_lookup e (source_frames v) 0
                (pass_files e 0 (source_frames v) f) p)
      as [(i & img & Hi & -> & Hout & Hres) | [_ Hsame]]; [|done].
    rewrite Hres. symmetry. by apply pass_files_written.
  - cbn. apply ensured_twice.
  - by rewrite !imwrites_finished.
  - done.
Qed.

Lemma rerun_changes_nothing_witness :
  exists w1 w2,
    script 3 (Demo.env_first_refused Nt)
      (boot Demo.no_dirs Demo.no_files (Demo.video [10; 20]%nat))
    = Some (Normal w1)
    /\ script 3 (Demo.env_first_refused Nt)
         (boot (dirs w1) (files w1) (Demo.video [10; 20]%nat))
       = Some (Normal w2)
    /\ files w2 = files w1
    /\ stdout w2 = stdout w1.
Proof.
  assert (source_frames (Demo.video [10; 20]%nat) = [10; 20]%nat) as Hsrc.
  { unfold source_frames, Demo.video. by rewrite lookup_singleton_eq. }
  assert (forall d f,
            folder_ok (Demo.env_first_refused Nt) d f ->
            script 3 (Demo.env_first_refused Nt) (boot d f (Demo.video [10; 20]%nat))
            = Some (Normal (finished (Demo.env_first_refused Nt) d f
                              (Demo.video [10; 20]%nat)
                              (source_frames (Demo.video [10; 20]%nat))))) as Hrun.
  { intros d f Hd. apply script_finishes; [done| |rewrite Hsrc; simpl; lia].
    rewrite Hsrc. intros [|[|i]] img Hi; [| |done]; injection Hi as <-;
      vm_compute; discriminate. }
  assert (folder_ok (Demo.env_first_refused Nt) Demo.no_dirs Demo.no_files) as Hd1.
  { right. split; [apply lookup_empty | reflexivity]. }
  eexists _, _. split; [exact (Hrun _ _ Hd1)|].
  assert (forall f, folder_ok (Demo.env_first_refused Nt)
                      (ensured (Demo.env_first_refused Nt) Demo.no_dirs) f) as Hd2.
  { intros f. left. apply ensured_has. }
  split; [exact (Hrun _ _ (Hd2 _))|].
  destruct (rerun_changes_nothing _ _ _ _ _ _ _ _ (Hrun _ _ Hd1) (Hrun _ _ (Hd2 _)))
    as (Hfiles & _ & _ & Hout).
  split; [exact Hfiles | exact Hout].
Defined.

(** X8 (how many files).  A run that ends adds at most one file per
    decodable frame, so the number it reports is an upper bound on the
    files it created; when it ends normally, every write succeeded and
    none of the frame paths existed before, it created exactly as many
    files as it reports. *)
Theorem file_count_bounded {Img : Type} (e : env (Img:=Img)) (d : gset string)
    (f : gmap string Img) (v : gmap string (list read_result)) (fuel : nat)
    (r : completion world) :
  script fuel e (boot d f v) = Some r ->
  (size (files (world_of r)) <= size f + length (source_frames v))%nat
  /\ (forall w', r = Normal w' ->
      (forall (i : nat) (img : Img), source_frames v !! i = Some img ->
         imwrite_outcome e (output_path_of (platform e) (N.of_nat i)) img = Written
         /\ f !! output_path_of (platform e) (N.of_nat i) = None) ->
      size (files w') = (size f + length (source_frames v))%nat).
Proof.
  intros Hrun.
  destruct (script_result _ _ _ _ _ _ Hrun)
    as [[_ ->] | [(_ & _ & ->) | (_ & k & frame & _ & _ & _ & ->)]];
    cbn [world_of].
  - split; [cbn; lia|done].
  - split; [apply pass_files_size_le|].
    intros w' [= <-] Hall. cbn. apply pass_files_size_eq.
    intros i img Hi. rewrite N.add_0_l. by apply Hall.
  - split; [|done]. cbn.
    etrans; [apply pass_files_size_le|]. rewrite length_take. lia.
Qed.

Lemma file_count_bounded_witness :
  exists w',
    script 3 (Demo.env_first_refused Nt)
      (boot Demo.no_dirs Demo.no_files (Demo.video [10; 20]%nat))
    = Some (Normal w')
    /\ (size (files w') <= 2)%nat
    /\ stdout w' = ["Done! Extracted 2 frames."].
Proof.
  assert (source_frames (Demo.video [10; 20]%nat) = [10; 20]%nat) as Hsrc.
  { unfold source_frames, Demo.video. by rewrite lookup_singleton_eq. }
  assert (script 3 (Demo.env_first_refused Nt)
            (boot Demo.no_dirs Demo.no_files (Demo.video [10; 20]%nat))
          = Some (Normal (finished (Demo.env_first_refused Nt) Demo.no_dirs
                            Demo.no_files (Demo.video [10; 20]%nat)
                            (source_frames (Demo.video [10; 20]%nat))))) as Hrun.
  { apply script_finishes.
    - right. split; [apply lookup_empty | reflexivity].
    - rewrite Hsrc. intros [|[|i]] img Hi; [| |done]; injection Hi as <-;
        vm_compute; discriminate.
    - rewrite Hsrc. simpl. lia. }
  eexists. split; [exact Hrun|].
  destruct (file_count_bounded _ _ _ _ _ _ Hrun) as [Hle _].
  split.
  - cbn [world_of] in Hle. rewrite Hsrc in Hle.
    unfold Demo.no_files in Hle. rewrite map_size_empty in Hle.
    rewrite Hsrc. exact Hle.
  - rewrite Hsrc. vm_compute. reflexivity.
Defined.

(** X9 (sorting the folder).  For indices below 10000, and more generally
    for indices formatted to one width, the file names sort as strings in
    the order of the indices; from 10000 on this is lost, since
    [frame_10000.png] sorts before [frame_9999.png]. *)
Theorem names_sort_like_indices (i j : N) :
  (String.length (format_04d i) = String.length (format_04d j) ->
   String.compare (frame_name i) (frame_name j) = N.compare i j)
  /\ (i < 10000 -> j < 10000 ->
      String.compare (frame_name i) (frame_name j) = N.compare i j)
  /\ String.compare (frame_name 10000) (frame_name 9999) = Lt.
Proof.
  split; [apply frame_name_compare|]. split; [|vm_compute; reflexivity].
  intros Hi Hj. apply frame_name_compare.
  rewrite !format_04d_length.
  pose proof (py_str_length_le i 4 Hi ltac:(lia)).
  pose proof (py_str_length_le j 4 Hj ltac:(lia)). lia.
Qed.

Lemma names_sort_like_indices_witness :
  String.compare "frame_0009.png" "frame_0010.png" = Lt.
Proof.
  destruct (names_sort_like_indices 9 10) as (_ & Hsmall & _).
  exact (Hsmall ltac:(lia) ltac:(lia)).
Defined.

(** X10 (a missing video looks like an empty one).  A run over a path
    that cannot be opened and a run over a video that opens and yields no
    frame end the same way and leave the same directories, files, console
    output and library calls: nothing the script does or prints tells the
    two apart. *)
Theorem unopenable_like_empty {Img : Type} (e : env (Img:=Img)) (d : gset string)
    (f : gmap string Img) (v1 v2 : gmap string (list read_result))
    (rs : list read_result) (fuel1 fuel2 : nat) (r1 r2 : completion world) :
  v1 !! video_path = None ->
  v2 !! video_path = Some rs ->
  decodable rs = [] ->
  script fuel1 e (boot d f v1) = Some r1 ->
  script fuel2 e (boot d f v2) = Some r2 ->
  match r1, r2 with
  | Normal _, Normal _ => True
  | Abrupt x1 _, Abrupt x2 _ => x1 = x2
  | _, _ => False
  end
  /\ dirs (world_of r1) = dirs (world_of r2)
  /\ files (world_of r1) = files (world_of r2)
  /\ stdout (world_of r1) = stdout (world_of r2)
  /\ calls (world_of r1) = calls (world_of r2).
Proof.
  intros Hv1 Hv2 Hrs Hr1 Hr2.
  assert (source_frames v1 = []) as Hs1 by (unfold source_frames; by rewrite Hv1).
  assert (source_frames v2 = []) as Hs2 by (unfold source_frames; by rewrite Hv2).
  destruct (script_result _ _ _ _ _ _ Hr1)
    as [[Hno1 ->] | [(Hok1 & _ & ->) | (_ & k & frame & Hk & _)]];
    [| |by rewrite Hs1 in Hk];
    (destruct (script_result _ _ _ _ _ _ Hr2)
       as [[Hno2 ->] | [(Hok2 & _ & ->) | (_ & k & frame & Hk & _)]];
     [| |by rewrite Hs2 in Hk]); try done.
  by rewrite Hs1, Hs2.
Qed.

Lemma unopenable_like_empty_witness :
  exists r1 r2,
    script 1 (Demo.env_ok Nt) (boot Demo.no_dirs Demo.no_files Demo.no_video) = Some r1
    /\ script 1 (Demo.env_ok Nt) (boot Demo.no_dirs Demo.no_files (Demo.video []))
       = Some r2
    /\ stdout (world_of r1) = stdout (world_of r2)
    /\ calls (world_of r1) = calls (world_of r2).
Proof.
  assert (forall v, source_frames v = [] ->
            script 1 (Demo.env_ok Nt) (boot Demo.no_dirs Demo.no_files v)
            = Some (Normal (finished (Demo.env_ok Nt) Demo.no_dirs Demo.no_files v
                              (source_frames v)))) as Hrun.
  { intros v Hv. apply script_finishes.
    - right. split; [apply lookup_empty | reflexivity].
    - intros i img _. discriminate.
    - rewrite Hv. simpl. lia. }
  assert (source_frames Demo.no_video = []) as Hs1 by reflexivity.
  assert (source_frames (Demo.video []) = []) as Hs2.
  { unfold source_frames, Demo.video. by rewrite lookup_singleton_eq. }
  eexists _, _. split; [exact (Hrun _ Hs1)|]. split; [exact (Hrun _ Hs2)|].
  destruct (unopenable_like_empty (Demo.env_ok Nt) Demo.no_dirs Demo.no_files
              Demo.no_video (Demo.video []) [] 1 1 _ _
              (lookup_empty _) (lookup_singleton_eq _ _) eq_refl
              (Hrun _ Hs1) (Hrun _ Hs2))
    as (_ & _ & _ & Hout & Hcalls).
  split; [exact Hout | exact Hcalls].
Defined.
